(** * codereview.py: the review ledger, its store and its commands

    A shallow embedding of [src/codereview.py].  The program keeps, for one
    pull request, a dictionary of changed files with their line counts and a
    [reviewed] flag, persists it as one JSON record per pull-request key, and
    offers the commands [overview], [status], [review] and [reset] plus an
    interactive session that addresses files by number.

    Python values are rendered as follows.
    - [int] is [Z] (unbounded).
    - [str] is [string]; a string literal of this file is the UTF-8 text of
      the Python string.  The methods of [str] the program calls
      ([strip], [lower], [isdigit], [split]) and [int(str)] belong to the
      interpreter, not to the program: they are the fields of the class
      [PyStr], and lemmas state which facts about them they use.
    - the dictionary [state["files"]] is a [gmap string FileEntry]; the
      dictionary [state] itself, whose two keys are fixed, is a record.
    - a [float] is a [spec_float] of the Standard Library's IEEE 754
      specification at binary64 (precision 53, emax 1024).
    - the console, the state files and the external commands are the
      [World] threaded through the monad [IO]; an uncaught exception is the
      outcome [Raise].

    The functions of the source are embedded under their names:
    [current_pr_key], [gh_view], [load_config], [yn], [load_state],
    [save_state], [run_review_cmd], [find_jira], [cmd_overview],
    [cmd_status], [cmd_review], [cmd_reset] and [_interactive_session] with
    its local functions.  What [gh], [git] and the configuration file
    answer is the [Env] of a run.  Not embedded are [main] with its argument
    parser and aliases, the tokenisation of the review command (its run is
    one event, taken to complete), the creation of a missing configuration
    file by [load_config], and a keyboard interrupt. *)

From Stdlib Require Import ZArith List Bool.
From Stdlib Require Import SpecFloat.
From stdpp Require Import gmap strings list fin_maps.

Local Open Scope Z_scope.

(** ** Data model *)

(** One value of [state["files"]]: [{"lines": ..., "reviewed": ...}]. *)
Record FileEntry := { lines : Z; reviewed : bool }.

(** The dictionary [state]: [{"files": {...}, "total_lines": ...}]. *)
Record ReviewState := { files : gmap string FileEntry; total_lines : Z }.

(** One element of [data["files"]] as [gh pr view --json files] returns it.
    [additions] and [deletions] are read with [f.get(key, 0)], hence
    optional. *)
Record PRFile := { path : string; additions : option Z; deletions : option Z }.

(** The answer of [gh pr view --json title,body,files]. *)
Record PRData := { title : string; body : string; pr_files : list PRFile }.

(** The two settings of the configuration file that the modelled functions
    read: [config["jira"]["base"]] and [config["actions"]["onReview"]]. *)
Record Config := { jira_base : option string; on_review : option string }.

(** The external collaborators of one run: what [current_pr_key] and
    [gh_view] obtain from [gh] and [git] ([None] when the subprocess fails),
    what [load_config] reads, and the interpreter's recursion limit. *)
Record Env := {
  pr_number : option string;
  pr_view : option PRData;
  user_config : Config;
  (** how many nested calls of [load_state] the interpreter's recursion
      limit still allows *)
  recursion_limit : nat
}.

(** The interpreter's [str] methods used by the program. *)
Class PyStr := {
  str_strip : string → string;
  str_lower : string → string;
  str_isdigit : string → bool;
  str_split : string → list string;
  (** [int(s)]; [None] stands for [ValueError]. *)
  str_int : string → option Z;
  (** [re.search(r"[A-Z][A-Z0-9]+-\d+", s)], the matched text. *)
  jira_search : string → option string
}.

(** What the program writes to the console, one constructor per [print] or
    [input] call of the source, and the external review command. *)
Inductive Event :=
  | PrUnableToDeterminePR
  | PrGhViewFailed
  | PrPrompt (prompt : string) (default : bool)
  | PrKey (pr_key : string)
  | PrStateFile (pr_key : string)
  | PrSummary (title : string)
  | PrJira (base : option string) (ticket : string)
  | PrBody (body : string)
  | PrFileSummary
  | PrFileLine (idx : option Z) (mark : bool) (path : string) (lines : Z)
  | PrTotal (nfiles : Z) (total : Z)
  | PrNoState
  | PrStatus (remaining pct files_left : Z)
  | PrUnknownFile
  | PrAlreadyReviewed (path : string)
  | PrMarked (lines : Z) (mode : string)
  | PrResetDone
  | PrNoReset
  | PrInvalidId (token : string)
  | PrFullPath (path : string)
  | PrListLine (idx : Z) (path : string) (lines : Z)
  | PrCommands
  | PrSessionPrompt
  | PrNewline
  | PrUnknownCommand
  | PrApprovedHeader
  | PrApproved (path : string)
  | RunReviewCmd (command : option string) (path : string).

(** The exceptions that can leave the modelled functions. *)
Inductive exn :=
  | NameError (name : string)
  | EOFError
  | ValueError
  | OverflowError
  | ZeroDivisionError
  | IndexError
  | RecursionError
  | SystemExit (code : Z).

(** The state files (one record per pull-request key, the file
    [<root>/.git/codereview_state/<pr_key>.json]; a key is what
    [current_pr_key] returns, the number of the pull request in decimal),
    the lines still to be read from standard input, and the console output
    so far. *)
Record World := {
  store : gmap string ReviewState;
  stdin : list string;
  stdout : list Event
}.

(** ** The monad of commands *)

Inductive outcome (A : Type) :=
  | Return (a : A)
  | Raise (e : exn).
Arguments Return {A} a.
Arguments Raise {A} e.

Definition IO (A : Type) : Type := World → outcome A * World.

#[global] Instance IO_ret : MRet IO := λ A a w, (Return a, w).

#[global] Instance IO_bind : MBind IO := λ A B f m w,
  match m w with
  | (Return a, w') => f a w'
  | (Raise e, w') => (Raise e, w')
  end.

Definition raise {A} (e : exn) : IO A := λ w, (Raise e, w).

Definition emit (ev : Event) (w : World) : World :=
  {| store := store w; stdin := stdin w; stdout := stdout w ++ [ev] |}.

Definition print (ev : Event) : IO unit := λ w, (Return (), emit ev w).

(** [input(prompt)]: the prompt is written, then one line is read;
    [EOFError] at the end of the input. *)
Definition input (prompt : Event) : IO string := λ w,
  match stdin w with
  | [] => (Raise EOFError, emit prompt w)
  | l :: rest =>
      (Return l, {| store := store w; stdin := rest; stdout := stdout w ++ [prompt] |})
  end.

(** [os.path.exists(path)] and [json.load]: the record of a key, if any. *)
Definition read_file (pr_key : string) : IO (option ReviewState) := λ w,
  (Return (store w !! pr_key), w).

(** [open(path, "w")] and [json.dump]. *)
Definition write_file (pr_key : string) (state : ReviewState) : IO unit := λ w,
  (Return (), {| store := <[pr_key := state]> (store w); stdin := stdin w; stdout := stdout w |}).

(** [os.remove(path)]. *)
Definition remove_file (pr_key : string) : IO unit := λ w,
  (Return (), {| store := delete pr_key (store w); stdin := stdin w; stdout := stdout w |}).

(** A [for] loop that threads the loop's variables. *)
Fixpoint for_each {A S : Type} (body : S → A → IO S) (s : S) (l : list A) : IO S :=
  match l with
  | [] => mret s
  | x :: l' => s' ← body s x; for_each body s' l'
  end.

(** [enumerate(l, start)]. *)
Fixpoint enumerate {A : Type} (start : Z) (l : list A) : list (Z * A) :=
  match l with
  | [] => []
  | x :: l' => (start, x) :: enumerate (start + 1) l'
  end.

(** The names bound at module level by the source: its imports, its
    functions and [CONFIG_FILE]. *)
Definition module_globals : list string :=
  ["argparse"; "json"; "os"; "re"; "shlex"; "subprocess"; "sys";
   "repo_root"; "CONFIG_FILE"; "current_pr_key"; "state_file"; "load_config";
   "yn"; "load_state"; "save_state"; "run_review_cmd"; "gh_view"; "find_jira";
   "cmd_overview"; "cmd_status"; "cmd_review"; "cmd_reset";
   "_interactive_session"; "main"]%string.

(** Reading a name that is not a local of the function: the module's
    globals are searched (the built-in names come next, and none of them is
    read this way), and [NameError] is raised when the name is unbound.  The
    result is the truth value of the object; modules, functions and the
    non-empty [CONFIG_FILE] are all true. *)
Definition load_global (name : string) : IO bool :=
  if bool_decide (name ∈ module_globals) then mret true else raise (NameError name).

(** ** The ledger: sums over the dictionary *)

(** [f.get("additions", 0) + f.get("deletions", 0)]. *)
Definition file_lines (f : PRFile) : Z :=
  default 0 (additions f) + default 0 (deletions f).

(** The sum of the line counts of all elements of a file list. *)
Definition list_total (fl : list PRFile) : Z :=
  foldr (λ f acc, file_lines f + acc) 0 fl.

(** [sum(f["lines"] for f in state["files"].values() if f["reviewed"])]. *)
Definition reviewed_lines (fs : gmap string FileEntry) : Z :=
  map_fold (λ _ f acc, if reviewed f then lines f + acc else acc) 0 fs.

(** [sum(1 for f in state["files"].values() if not f["reviewed"])]. *)
Definition unreviewed_count (fs : gmap string FileEntry) : Z :=
  map_fold (λ _ f acc, if reviewed f then acc else 1 + acc) 0 fs.

(** The sum of the [lines] fields of all entries. *)
Definition sum_lines (fs : gmap string FileEntry) : Z :=
  map_fold (λ _ f acc, lines f + acc) 0 fs.

(** ** Floating point: the arithmetic of [int((reviewed / total) * 100)] *)

Definition prec : Z := 53.
Definition emax : Z := 1024.

(** An integer as the exact value [m * 2^0]; the operations below round. *)
Definition float_of_int (z : Z) : spec_float :=
  match z with
  | Z0 => S754_zero false
  | Zpos p => S754_finite false p 0
  | Zneg p => S754_finite true p 0
  end.

(** [a / b] on two [int]s: the quotient of the exact values, rounded once to
    the nearest double (ties to even); [ZeroDivisionError] for [b = 0] and
    [OverflowError] when the quotient is too large for a double. *)
Definition py_truediv (a b : Z) : outcome spec_float :=
  if decide (b = 0) then Raise ZeroDivisionError
  else match SFdiv prec emax (float_of_int a) (float_of_int b) with
       | S754_infinity _ => Raise OverflowError
       | q => Return q
       end.

(** [x * n] for a [float] and an [int]: the [int] becomes the nearest
    double, the product is rounded to the nearest double and may be
    infinite. *)
Definition py_float_mul_int (x : spec_float) (n : Z) : spec_float :=
  SFmul prec emax x (binary_normalize prec emax n 0 false).

(** [int(x)]: truncation toward zero. *)
Definition py_int_of_float (x : spec_float) : outcome Z :=
  match x with
  | S754_zero _ => Return 0
  | S754_finite s m e =>
      Return (cond_Zopp s (if decide (0 ≤ e) then Z.pos m * 2 ^ e
                           else Z.pos m / 2 ^ (- e)))
  | S754_infinity _ => Raise OverflowError
  | S754_nan => Raise ValueError
  end.

(** [int((reviewed / total) * 100) if total else 100]. *)
Definition percent_reviewed (reviewed total : Z) : outcome Z :=
  if decide (total = 0) then Return 100
  else match py_truediv reviewed total with
       | Return q => py_int_of_float (py_float_mul_int q 100)
       | Raise e => Raise e
       end.

Definition lift {A} (o : outcome A) : IO A := λ w, (o, w).

(** ** The program *)

Definition nl : string := String (Ascii.ascii_of_nat 10) EmptyString.

Section Program.
Context `{PyStr} (env : Env).

(** [current_pr_key()]: the number of the pull request as a string;
    exits with status 1 when [gh] or [git] fail. *)
Definition current_pr_key : IO string :=
  match pr_number env with
  | Some number => mret number
  | None => print PrUnableToDeterminePR;; raise (SystemExit 1)
  end.

Definition gh_view : IO PRData :=
  match pr_view env with
  | Some data => mret data
  | None => print PrGhViewFailed;; raise (SystemExit 1)
  end.

Definition load_config : IO Config := mret (user_config env).

Definition yn (prompt : string) (default : bool) : IO bool :=
  line ← input (PrPrompt prompt default);
  let ans := str_lower (str_strip line) in
  if bool_decide (ans = "") then mret default
  else mret (bool_decide (ans = "y")).

Definition save_state (state : ReviewState) (pr_key : string) : IO unit :=
  print (PrKey pr_key);;
  print (PrStateFile pr_key);;
  write_file pr_key state.

(** [run_review_cmd(path)].  The event stands for the call of line 101; it
    carries the setting [actions.onReview] as the configuration file has it
    and the path.  Lines 92 to 100, which make the argument list from the
    two ([git diff main -- path] for a missing or an empty setting), are
    not embedded, and the call is taken to return.  A setting that
    [shlex.split] rejects, or a program that cannot be started, ends
    [cmd_review] in an exception before its question: the theorems on
    [cmd_review] are about the runs in which the call returns. *)
Definition run_review_cmd (path : string) : IO unit :=
  config ← load_config;
  print (RunReviewCmd (on_review config) path).

Definition find_jira (text : string) : option string := jira_search text.

(** Lines 142 to 146: what one iteration of the loop of [cmd_overview]
    does to [state] and [paths]. *)
Definition overview_record (acc : ReviewState * list string) (f : PRFile)
    : ReviewState * list string :=
  let '(state, paths) := acc in
  let lines := file_lines f in
  ({| files := <[path f := {| lines := lines; reviewed := false |}]> (files state);
      total_lines := total_lines state + lines |},
   paths ++ [path f]).

(** Lines 142 to 151: one iteration of the loop of [cmd_overview].  The
    name [reviewed] of line 147 is no local of [cmd_overview]. *)
Definition overview_iteration (interactive : bool)
    (acc : ReviewState * list string) (it : Z * PRFile)
    : IO (ReviewState * list string) :=
  let '(idx, f) := it in
  let acc' := overview_record acc f in
  let lines := file_lines f in
  reviewed ← load_global "reviewed";
  let mark := reviewed in
  print (PrFileLine (if interactive then Some idx else None) mark (path f) lines);;
  mret acc'.

(** Lines 124 to 153 of [cmd_overview]: everything before the interactive
    session.  Returns [paths] and [pr_key]. *)
Definition overview_and_save (config : Config) (interactive : bool)
    : IO (list string * string) :=
  pr_key ← current_pr_key;
  data ← gh_view;
  let title := str_strip (title data) in
  let body := str_strip (body data) in
  print (PrSummary title);;
  match find_jira (title ++ nl ++ body), jira_base config with
  | Some jira, Some base =>
      if bool_decide (base = "") then print (PrJira None jira)
      else print (PrJira (Some base) jira)
  | Some jira, None => print (PrJira None jira)
  | None, _ => mret ()
  end;;
  (if bool_decide (body = "") then mret () else print (PrBody body));;
  let files := pr_files data in
  let state := {| files := ∅; total_lines := 0 |} in
  print PrFileSummary;;
  '(state, paths) ← for_each (overview_iteration interactive) (state, [])
                             (enumerate 1 files);
  save_state state pr_key;;
  print (PrTotal (Z.of_nat (length files)) (total_lines state));;
  mret (paths, pr_key).

(** What the lines before the loop print. *)
Definition overview_header (config : Config) (data : PRData) : list Event :=
  let t := str_strip (title data) in
  let b := str_strip (body data) in
  [PrSummary t]
  ++ match find_jira (t ++ nl ++ b), jira_base config with
     | Some jira, Some base =>
         if bool_decide (base = "") then [PrJira None jira]
         else [PrJira (Some base) jira]
     | Some jira, None => [PrJira None jira]
     | None, _ => []
     end
  ++ (if bool_decide (b = "") then [] else [PrBody b])
  ++ [PrFileSummary].

(** [load_state(pr_key)]; the recursive call after an overview is counted
    against the recursion limit. *)
Fixpoint load_state_rec (depth : nat) (pr_key : string) : IO (option ReviewState) :=
  found ← read_file pr_key;
  match found with
  | Some state => mret (Some state)
  | None =>
      again ← yn "No state file. Run overview?" false;
      if (again : bool) then
        config ← load_config;
        overview_and_save config false;;
        match depth with
        | O => raise RecursionError
        | S depth' => load_state_rec depth' pr_key
        end
      else mret None
  end.

Definition load_state (pr_key : string) : IO (option ReviewState) :=
  load_state_rec (recursion_limit env) pr_key.

Definition cmd_status (pr_key : string) : IO unit :=
  state ← load_state pr_key;
  match state with
  | None => print PrNoState
  | Some state =>
      let total := total_lines state in
      let reviewed := reviewed_lines (files state) in
      let remaining := total - reviewed in
      pct ← lift (percent_reviewed reviewed total);
      let files_left := unreviewed_count (files state) in
      print (PrStatus remaining pct files_left)
  end.

Definition cmd_review (path mode pr_key : string) : IO bool :=
  state ← load_state pr_key;
  match state with
  | None => print PrUnknownFile;; mret false
  | Some state =>
      match files state !! path with
      | None => print PrUnknownFile;; mret false
      | Some entry =>
          if reviewed entry then
            print (PrAlreadyReviewed path);; mret false
          else
            run_review_cmd path;;
            marked ← yn "Mark reviewed?" false;
            if negb (marked : bool) then mret false
            else
              let state' :=
                {| files := <[path := {| lines := lines entry; reviewed := true |}]>
                              (files state);
                   total_lines := total_lines state |} in
              save_state state' pr_key;;
              print (PrMarked (lines entry) mode);;
              mret true
      end
  end.

Definition cmd_reset (pr_key : string) : IO unit :=
  found ← read_file pr_key;
  match found with
  | Some _ => remove_file pr_key;; print PrResetDone
  | None => print PrNoReset
  end.

(** *** The interactive session *)

Section Session.
Variables (paths : list string) (pr_key : string).

(** [for i in valid_ids(ids): body].  [valid_ids] is a generator: the
    diagnostic of a token is printed when the loop asks for the next
    item, after the body has run for the tokens before it; [int(i)]
    is evaluated only for a token that passed [isdigit]. *)
Definition valid_ids {S : Type} (body : S → string → IO S) (s : S)
    (ids : list string) : IO S :=
  for_each (λ s i,
    if negb (str_isdigit i) then print (PrInvalidId i);; mret s
    else match str_int i with
         | None => raise ValueError
         | Some n =>
             if negb (bool_decide (1 ≤ n ≤ Z.of_nat (length paths)))
             then print (PrInvalidId i);; mret s
             else body s i
         end) s ids.

(** [paths[int(i) - 1]], with Python's indexing from the end for a
    negative index. *)
Definition path_at (i : string) : IO string :=
  match str_int i with
  | None => raise ValueError
  | Some n =>
      let len := Z.of_nat (length paths) in
      let k := if decide (n - 1 < 0) then n - 1 + len else n - 1 in
      if decide (0 ≤ k < len) then
        match paths !! Z.to_nat k with
        | Some path => mret path
        | None => raise IndexError
        end
      else raise IndexError
  end.

Definition print_files (ids : list string) : IO unit :=
  valid_ids (λ _ i, path ← path_at i; print (PrFullPath path)) () ids.

Definition review_files (ids : list string) (mode : string) : IO (list string) :=
  valid_ids (λ approved_here i,
    path ← path_at i;
    ok ← cmd_review path mode pr_key;
    mret (if (ok : bool) then approved_here ++ [path] else approved_here)) [] ids.

Definition list_all : IO unit :=
  state ← load_state pr_key;
  let fs := match state with Some st => files st | None => ∅ end in
  for_each (λ _ '(idx, path),
    let lines := default 0 (lines <$> fs !! path) in
    print (PrListLine idx path lines)) () (enumerate 1 paths).

Definition list_unreviewed : IO unit :=
  state ← load_state pr_key;
  let fs := match state with Some st => files st | None => ∅ end in
  for_each (λ _ '(idx, path),
    if default false (reviewed <$> fs !! path) then mret ()
    else
      let lines := default 0 (lines <$> fs !! path) in
      print (PrListLine idx path lines)) () (enumerate 1 paths).

(** The table [cmds]; [None] for a command that is not in it.  The
    result is what [fn(ids)] returns, an empty list standing for the
    [None] of the commands that return nothing. *)
Definition cmds (cmd : string) : option (list string → IO (list string)) :=
  if bool_decide (cmd = "p") then Some (λ ids, print_files ids;; mret [])
  else if bool_decide (cmd = "print") then Some (λ ids, print_files ids;; mret [])
  else if bool_decide (cmd = "rs") then Some (λ ids, review_files ids "skim")
  else if bool_decide (cmd = "rd") then Some (λ ids, review_files ids "deep")
  else if bool_decide (cmd = "ls") then Some (λ _, list_all;; mret [])
  else if bool_decide (cmd = "lsu") then Some (λ _, list_unreviewed;; mret [])
  else None.

(** [input("> ")] under [try ... except EOFError]. *)
Definition input_or_eof : IO (option string) := λ w,
  match input PrSessionPrompt w with
  | (Raise EOFError, w') => (Return None, w')
  | (Raise e, w') => (Raise e, w')
  | (Return line, w') => (Return (Some line), w')
  end.

(** The [while True] loop.  Every turn reads a line, so the number of
    lines left on the input bounds the number of turns: [turns] is that
    bound. *)
Fixpoint session_loop (turns : nat) (approved : list string) : IO (list string) :=
  match turns with
  | O => mret approved
  | S turns' =>
      line ← input_or_eof;
      match line with
      | None => print PrNewline;; mret approved
      | Some line =>
          let entry := str_strip line in
          if bool_decide (entry = "") then mret approved
          else
            match str_split entry with
            | [] => raise ValueError
            | cmd :: ids =>
                res ← match cmds cmd with
                      | None => print PrUnknownCommand;; mret []
                      | Some fn => fn ids
                      end;
                cmd_status pr_key;;
                session_loop turns' (approved ++ res)
            end
      end
  end.

Definition _interactive_session : IO unit :=
  print PrCommands;;
  approved ← (λ w, session_loop (S (length (stdin w))) [] w);
  match approved with
  | [] => mret ()
  | _ => print PrApprovedHeader;;
         for_each (λ _ pth, print (PrApproved pth)) () approved
  end.
End Session.

Definition cmd_overview (config : Config) (interactive : bool) : IO unit :=
  '(paths, pr_key) ← overview_and_save config interactive;
  if interactive then _interactive_session paths pr_key else mret ().

(** The state that the assignments of the loop of [cmd_overview] (lines
    138 and 141 to 146) alone would build from a file list, with the list
    of paths.  No run of [cmd_overview] builds it for a list that is not
    empty: line 147 of the same loop body, which is part of
    [overview_iteration] and not of this definition, raises [NameError] in
    the first iteration.  The definition serves to say which state a claim
    expects; what the program does is stated of [cmd_overview]. *)
Definition overview_accumulate (fl : list PRFile) : ReviewState * list string :=
  fold_left overview_record fl ({| files := ∅; total_lines := 0 |}, []).

End Program.

(** ** An interpreter for ASCII text

    A [PyStr] to run the program with.  It follows CPython on ASCII text and
    on the three superscript digits of Latin-1, which [str.isdigit] accepts
    and [int] rejects; every other byte above 127 is taken as a character
    that is neither a digit, nor a space, nor a letter with a lower case. *)

Definition ascii_in (lo hi : N) (a : Ascii.ascii) : bool :=
  (lo <=? Ascii.N_of_ascii a)%N && (Ascii.N_of_ascii a <=? hi)%N.

Definition is_ascii_digit (a : Ascii.ascii) : bool := ascii_in 48 57 a.

(** ASCII white space of [str.strip] and [str.split]: tab to carriage
    return, the four separators 28 to 31, and the space. *)
Definition is_ascii_space (a : Ascii.ascii) : bool :=
  ascii_in 9 13 a || ascii_in 28 32 a.

Fixpoint drop_spaces (s : string) : string :=
  match s with
  | String a s' => if is_ascii_space a then drop_spaces s' else s
  | EmptyString => EmptyString
  end.

Definition ascii_strip (s : string) : string :=
  String.rev (drop_spaces (String.rev (drop_spaces s))).

Definition ascii_lower_char (a : Ascii.ascii) : Ascii.ascii :=
  if ascii_in 65 90 a then Ascii.ascii_of_N (Ascii.N_of_ascii a + 32) else a.

Fixpoint ascii_lower (s : string) : string :=
  match s with
  | String a s' => String (ascii_lower_char a) (ascii_lower s')
  | EmptyString => EmptyString
  end.

(** Every character is an ASCII digit. *)
Fixpoint all_ascii_digits (s : string) : bool :=
  match s with
  | String a s' => is_ascii_digit a && all_ascii_digits s'
  | EmptyString => true
  end.

(** A non-empty string of ASCII digits. *)
Definition ascii_digits (s : string) : bool :=
  negb (bool_decide (s = "")) && all_ascii_digits s.

(** The value of a string of ASCII digits read in base 10. *)
Definition decimal_value (s : string) : Z :=
  fold_left (λ acc a, 10 * acc + (Z.of_N (Ascii.N_of_ascii a) - 48))
            (String.list_ascii_of_string s) 0.

(** The second byte of the UTF-8 form of the superscript digits two, three
    and one (U+00B2, U+00B3, U+00B9); the first byte is 194. *)
Definition is_superscript_tail (a : Ascii.ascii) : bool :=
  let n := Ascii.N_of_ascii a in
  (n =? 178)%N || (n =? 179)%N || (n =? 185)%N.

Fixpoint all_digit_chars (s : string) : bool :=
  match s with
  | EmptyString => true
  | String a s' =>
      if is_ascii_digit a then all_digit_chars s'
      else if (Ascii.N_of_ascii a =? 194)%N then
        match s' with
        | String b s'' => is_superscript_tail b && all_digit_chars s''
        | EmptyString => false
        end
      else false
  end.

Definition ascii_isdigit (s : string) : bool :=
  negb (bool_decide (s = "")) && all_digit_chars s.

(** [int(s)] for the strings the program passes to it, those that passed
    [isdigit]. *)
Definition ascii_int (s : string) : option Z :=
  if ascii_digits s then Some (decimal_value s) else None.

(** [s.split()]: the maximal runs of characters that are not white space. *)
Fixpoint split_words (cur : string) (s : string) : list string :=
  match s with
  | EmptyString => if bool_decide (cur = "") then [] else [String.rev cur]
  | String a s' =>
      if is_ascii_space a then
        (if bool_decide (cur = "") then [] else [String.rev cur]) ++ split_words "" s'
      else split_words (String a cur) s'
  end.

Definition ascii_split (s : string) : list string := split_words "" s.

(** The longest prefix of characters of a class, and the rest. *)
Fixpoint span_class (p : Ascii.ascii → bool) (s : string) : string * string :=
  match s with
  | String a s' =>
      if p a then let '(run, rest) := span_class p s' in (String a run, rest)
      else (EmptyString, s)
  | EmptyString => (EmptyString, EmptyString)
  end.

(** A match of [[A-Z][A-Z0-9]+-\d+] at the start of the text.  The hyphen
    is in neither class, so the greedy runs decide. *)
Definition jira_at (s : string) : option string :=
  match s with
  | String a s1 =>
      if ascii_in 65 90 a then
        let '(key, s2) := span_class (λ c, ascii_in 65 90 c || is_ascii_digit c) s1 in
        match key, s2 with
        | String _ _, String dash s3 =>
            if (Ascii.N_of_ascii dash =? 45)%N then
              match span_class is_ascii_digit s3 with
              | (String d ds, _) => Some (String a key +:+ String dash (String d ds))
              | _ => None
              end
            else None
        | _, _ => None
        end
      else None
  | EmptyString => None
  end.

(** The leftmost match. *)
Fixpoint ascii_jira_search (s : string) : option string :=
  match jira_at s with
  | Some m => Some m
  | None => match s with
            | String _ s' => ascii_jira_search s'
            | EmptyString => None
            end
  end.

#[local] Instance ascii_str : PyStr := {|
  str_strip := ascii_strip;
  str_lower := ascii_lower;
  str_isdigit := ascii_isdigit;
  str_split := ascii_split;
  str_int := ascii_int;
  jira_search := ascii_jira_search
|}.

(** A string of ASCII characters. *)
Definition ascii_text (s : string) : Prop :=
  Forall (λ a, (Ascii.N_of_ascii a < 128)%N) (String.list_ascii_of_string s).

(** A token of at most 4300 ASCII characters. *)
Definition plain_token (s : string) : Prop :=
  ascii_text s ∧ (String.length s ≤ 4300)%nat.

(** The facts about [str.isdigit] and [int] that the selector validation
    relies on, and the one it overlooks: on a string of ASCII characters
    [isdigit] holds exactly for the non-empty strings of digits, [int] reads
    such a string in base 10 (up to the 4300 digits that the interpreter
    converts by default), and the superscript two passes [isdigit] while
    [int] raises [ValueError] on it. *)
Class PyStrDigits `{PyStr} : Prop := {
  isdigit_ascii : ∀ s, ascii_text s → str_isdigit s = ascii_digits s;
  int_ascii_digits : ∀ s,
    ascii_digits s = true → (String.length s ≤ 4300)%nat →
    str_int s = Some (decimal_value s);
  isdigit_superscript : str_isdigit "²" = true;
  int_superscript : str_int "²" = None
}.

(** The entry of the last element of a file list with a given path. *)
Definition last_entry (fl : list PRFile) (p : string) : option FileEntry :=
  (λ f, {| lines := file_lines f; reviewed := false |})
    <$> last (filter (λ f, path f = p) fl).

(** A token that the selector validation is to accept, for a list of [n]
    files: a non-empty string of ASCII digits whose value is in [1, n]. *)
Definition valid_token (n : nat) (i : string) : bool :=
  ascii_digits i && bool_decide (1 ≤ decimal_value i ≤ Z.of_nat n).

(** What [print_files] is to print for a list of tokens: the path of each
    valid token and a diagnostic for each other token, in the order of the
    tokens. *)
Definition print_files_events (paths : list string) (ids : list string) : list Event :=
  (λ i, if valid_token (length paths) i
        then PrFullPath (default "" (paths !! Z.to_nat (decimal_value i - 1)))
        else PrInvalidId i) <$> ids.

(** ** Sample inputs *)

Definition mkfile (p : string) (a d : Z) : PRFile :=
  {| path := p; additions := Some a; deletions := Some d |}.

Definition entry (n : Z) (r : bool) : FileEntry := {| lines := n; reviewed := r |}.

(** The pull request of the scenario of the specification: [a.py] with five
    additions, [b.py] with three deletions. *)
Definition two_files : list PRFile := [mkfile "a.py" 5 0; mkfile "b.py" 0 3].

Definition sample_env (fl : list PRFile) : Env :=
  {| pr_number := Some "42";
     pr_view := Some {| title := "Fix ABC-123"; body := ""; pr_files := fl |};
     user_config := {| jira_base := None; on_review := None |};
     recursion_limit := 1000 |}.

Definition no_config : Config := {| jira_base := None; on_review := None |}.

(** A world with the given record for pull request 42 and the given input. *)
Definition world_with (st : ReviewState) (lines_in : list string) : World :=
  {| store := {[ "42" := st ]}; stdin := lines_in; stdout := [] |}.

(** File A of 10 lines reviewed, file B of 30 lines not: the scenario of the
    specification for the progress report. *)
Definition ten_thirty : ReviewState :=
  {| files := {[ "a.py" := entry 10 true; "b.py" := entry 30 false ]};
     total_lines := 40 |}.


(** One file of five lines, not reviewed. *)
Definition one_unreviewed : ReviewState :=
  {| files := {[ "a.py" := entry 5 false ]}; total_lines := 5 |}.

Definition empty_world : World := {| store := ∅; stdin := []; stdout := [] |}.


(** ** Reading the input *)

(** A command reads lines and never puts one back. *)
Definition consumes {A} (m : IO A) : Prop :=
  ∀ w, (length (stdin (m w).2) ≤ length (stdin w))%nat.

(** ** Invariants of the rounding of a quotient *)

(** The record of a right shift by [k] bits of the integer part of [A / B]:
    [R] is what is left of [A]. *)
Definition shr_inv (A B k : Z) (mrs : shr_record) : Prop :=
  0 ≤ shr_m mrs
  ∧ 0 ≤ A - shr_m mrs * (2 ^ k * B) < 2 ^ k * B
  ∧ (shr_r mrs = true ↔ 2 ^ k * B ≤ 2 * (A - shr_m mrs * (2 ^ k * B)))
  ∧ (shr_s mrs = true ↔
       A - shr_m mrs * (2 ^ k * B) ≠ 0
       ∧ 2 * (A - shr_m mrs * (2 ^ k * B)) ≠ 2 ^ k * B).

(** The location of [A / B] behind its integer part [m]. *)
Definition loc_inv (A B m : Z) (l : location) : Prop :=
  0 ≤ A - m * B < B
  ∧ match l with
    | loc_Exact => A - m * B = 0
    | loc_Inexact Lt => 0 < A - m * B ∧ 2 * (A - m * B) < B
    | loc_Inexact Eq => 2 * (A - m * B) = B
    | loc_Inexact Gt => B < 2 * (A - m * B)
    end.

(** ** Progress of a review *)

(** [st] continues [st0]: the same files with the same line counts, the same
    [total_lines], and every file reviewed in [st0] still reviewed. *)
Definition progress_le (st0 st : ReviewState) : Prop :=
  total_lines st = total_lines st0
  ∧ ∀ q, match files st0 !! q, files st !! q with
         | Some e0, Some e =>
             lines e = lines e0 ∧ (reviewed e0 = true → reviewed e = true)
         | None, None => True
         | _, _ => False
         end.

(** The file [p] is reviewed in the record of the key [k]. *)
Definition reviewed_in (s : gmap string ReviewState) (k p : string) : Prop :=
  ∃ st e, s !! k = Some st ∧ files st !! p = Some e ∧ reviewed e = true.

(** The state files [s] continue [s0] at the key [k] and are those of [s0]
    at the other keys. *)
Definition continues (s0 : gmap string ReviewState) (k : string)
    (s : gmap string ReviewState) : Prop :=
  (∃ st0 st, s0 !! k = Some st0 ∧ s !! k = Some st ∧ progress_le st0 st)
  ∧ ∀ k', k' ≠ k → s !! k' = s0 !! k'.

(** The list [l] names, each once, the files that are reviewed in the
    record of the key [k] in [s] and were not in [s0]. *)
Definition newly_reviewed (s0 s : gmap string ReviewState) (k : string)
    (l : list string) : Prop :=
  NoDup l ∧ ∀ p, p ∈ l ↔ reviewed_in s k p ∧ ¬ reviewed_in s0 k p.

(** A command keeps a property of the state files, however it ends. *)
Definition keeps {A} (P : gmap string ReviewState → Prop) (m : IO A) : Prop :=
  ∀ w, P (store w) → P (store (m w).2).

(** ** What the status and the listings are to show *)

(** The sum of the [lines] of the entries that are not reviewed. *)
Definition unreviewed_lines (fs : gmap string FileEntry) : Z :=
  map_fold (λ _ f acc, if reviewed f then acc else lines f + acc) 0 fs.

(** The state that [cmd_overview] saves for a pull request without files. *)
Definition empty_state : ReviewState := {| files := ∅; total_lines := 0 |}.

(** Two files, both reviewed. *)
Definition all_reviewed_state : ReviewState :=
  {| files := {[ "a.py" := entry 19 true; "b.py" := entry 30 true ]};
     total_lines := 49 |}.

(** The line of [ls] and [lsu] for one numbered path: the number, the path,
    and the [lines] of its entry, 0 when the state has no such entry. *)
Definition list_line (fs : gmap string FileEntry) (it : Z * string) : Event :=
  PrListLine it.1 it.2 (default 0 (lines <$> fs !! it.2)).

(** What [list_all] is to print for the paths of the session. *)
Definition listing (fs : gmap string FileEntry) (paths : list string) : list Event :=
  list_line fs <$> enumerate 1 paths.

(** A line of a listing whose path has no reviewed entry in the state. *)
Definition unreviewed_line (fs : gmap string FileEntry) (ev : Event) : bool :=
  match ev with
  | PrListLine _ path _ => negb (default false (reviewed <$> fs !! path))
  | _ => false
  end.

(** The world after some more output. *)
Definition printed (w : World) (evs : list Event) : World :=
  {| store := store w; stdin := stdin w; stdout := stdout w ++ evs |}.

(** * Properties *)

(** ** Running commands *)

Ltac io_unfold :=
  unfold mbind, IO_bind, mret, IO_ret, print, raise, lift, read_file,
    write_file, remove_file, input in *.

Ltac io_simpl := repeat (io_unfold; simpl in *).

Lemma io_bind_eq {A B} (m : IO A) (f : A → IO B) w :
  (m ≫= f) w =
    match m w with
    | (Return a, w') => f a w'
    | (Raise e, w') => (Raise e, w')
    end.
Proof. reflexivity. Qed.

Section Facts.
Context `{PyStr} (env : Env).

(** A state whose file exists is loaded without a question. *)
Lemma load_state_found pr_key st w :
  store w !! pr_key = Some st →
  load_state env pr_key w = (Return (Some st), w).
Proof.
  intros Hst. unfold load_state.
  destruct (recursion_limit env); simpl; io_unfold; by rewrite Hst.
Qed.

(** [yn] on a world with a line to read. *)
Lemma yn_line prompt default line rest w :
  stdin w = line :: rest →
  yn prompt default w =
    (Return (if bool_decide (str_lower (str_strip line) = "") then default
             else bool_decide (str_lower (str_strip line) = "y")),
     {| store := store w; stdin := rest;
        stdout := stdout w ++ [PrPrompt prompt default] |}).
Proof.
  intros Hin. unfold yn. io_unfold. rewrite Hin.
  by destruct (bool_decide (str_lower (str_strip line) = "")).
Qed.

Lemma yn_eof prompt default w :
  stdin w = [] →
  yn prompt default w = (Raise EOFError, emit (PrPrompt prompt default) w).
Proof. intros Hin. unfold yn. io_unfold. by rewrite Hin. Qed.

(** [cmd_review] on a path of the state that is not reviewed yet, when the
    answer to the question is read from the input: the entry is replaced
    by a reviewed one exactly when the answer is [y]. *)
Lemma cmd_review_answer path mode pr_key st e line rest w :
  store w !! pr_key = Some st →
  files st !! path = Some e →
  reviewed e = false →
  stdin w = line :: rest →
  cmd_review env path mode pr_key w =
    if bool_decide (str_lower (str_strip line) = "y") then
      (Return true,
       {| store := <[pr_key :=
                      {| files := <[path := {| lines := lines e; reviewed := true |}]>
                                    (files st);
                         total_lines := total_lines st |}]> (store w);
          stdin := rest;
          stdout := stdout w ++
            [RunReviewCmd (on_review (user_config env)) path;
             PrPrompt "Mark reviewed?" false;
             PrKey pr_key; PrStateFile pr_key;
             PrMarked (lines e) mode] |})
    else
      (Return false,
       {| store := store w; stdin := rest;
          stdout := stdout w ++
            [RunReviewCmd (on_review (user_config env)) path;
             PrPrompt "Mark reviewed?" false] |}).
Proof.
  intros Hst Hp Hr Hin. unfold cmd_review.
  unfold mbind at 1, IO_bind at 1. rewrite (load_state_found _ _ _ Hst).
  rewrite Hp, Hr.
  unfold run_review_cmd, load_config, save_state.
  io_simpl. rewrite (yn_line _ _ line rest) by exact Hin.
  destruct (bool_decide (str_lower (str_strip line) = "")) eqn:Hempty.
  - apply bool_decide_eq_true in Hempty. rewrite Hempty. simpl.
    unfold emit. simpl. by rewrite <- app_assoc.
  - destruct (bool_decide (str_lower (str_strip line) = "y")); simpl;
      unfold emit; simpl; rewrite <- ?app_assoc; simpl; done.
Qed.

Lemma cmd_review_eof path mode pr_key st e w :
  store w !! pr_key = Some st →
  files st !! path = Some e →
  reviewed e = false →
  stdin w = [] →
  cmd_review env path mode pr_key w =
    (Raise EOFError,
     {| store := store w; stdin := [];
        stdout := stdout w ++
          [RunReviewCmd (on_review (user_config env)) path;
           PrPrompt "Mark reviewed?" false] |}).
Proof.
  intros Hst Hp Hr Hin. unfold cmd_review.
  unfold mbind at 1, IO_bind at 1. rewrite (load_state_found _ _ _ Hst).
  rewrite Hp, Hr.
  unfold run_review_cmd, load_config, save_state.
  io_simpl. rewrite yn_eof by exact Hin.
  unfold emit. simpl. rewrite <- app_assoc, Hin. done.
Qed.

Lemma cmd_review_already path mode pr_key st e w :
  store w !! pr_key = Some st →
  files st !! path = Some e →
  reviewed e = true →
  cmd_review env path mode pr_key w =
    (Return false, emit (PrAlreadyReviewed path) w).
Proof.
  intros Hst Hp Hr. unfold cmd_review.
  unfold mbind at 1, IO_bind at 1. rewrite (load_state_found _ _ _ Hst).
  rewrite Hp, Hr. done.
Qed.

Lemma cmd_review_unknown path mode pr_key st w :
  store w !! pr_key = Some st →
  files st !! path = None →
  cmd_review env path mode pr_key w = (Return false, emit PrUnknownFile w).
Proof.
  intros Hst Hp. unfold cmd_review.
  unfold mbind at 1, IO_bind at 1. rewrite (load_state_found _ _ _ Hst).
  rewrite Hp. done.
Qed.

End Facts.

(** ** The input is only consumed *)

Lemma consumes_ret {A} (a : A) : consumes (mret a).
Proof. intros w. done. Qed.

Lemma consumes_raise {A} e : consumes (raise e : IO A).
Proof. intros w. done. Qed.

Lemma consumes_lift {A} (o : outcome A) : consumes (lift o).
Proof. intros w. done. Qed.

Lemma consumes_print ev : consumes (print ev).
Proof. intros w. done. Qed.

Lemma consumes_input ev : consumes (input ev).
Proof.
  intros w. unfold input.
  destruct (stdin w) eqn:Hin; simpl; rewrite ?Hin; simpl; lia.
Qed.

Lemma consumes_read_file k : consumes (read_file k).
Proof. intros w. done. Qed.

Lemma consumes_write_file k st : consumes (write_file k st).
Proof. intros w. done. Qed.

Lemma consumes_bind {A B} (m : IO A) (f : A → IO B) :
  consumes m → (∀ a, consumes (f a)) → consumes (m ≫= f).
Proof.
  intros Hm Hf w. rewrite io_bind_eq. specialize (Hm w).
  destruct (m w) as [[a|e] w']; simpl in *; [|done].
  specialize (Hf a w'). lia.
Qed.

Lemma consumes_for_each {A S} (body : S → A → IO S) l :
  (∀ s x, consumes (body s x)) → ∀ s, consumes (for_each body s l).
Proof.
  intros Hbody. induction l as [|x l IH]; intros s; simpl.
  - apply consumes_ret.
  - apply consumes_bind; [apply Hbody|apply IH].
Qed.

Create HintDb consumes.

Ltac consumes_step :=
  lazymatch goal with
  | |- consumes (mret _) => apply consumes_ret
  | |- consumes (raise _) => apply consumes_raise
  | |- consumes (lift _) => apply consumes_lift
  | |- consumes (print _) => apply consumes_print
  | |- consumes (input _) => apply consumes_input
  | |- consumes (read_file _) => apply consumes_read_file
  | |- consumes (write_file _ _) => apply consumes_write_file
  | |- consumes (mbind _ _) => apply consumes_bind; [|intros ?]
  | |- consumes (for_each _ _ _) => apply consumes_for_each; intros ? ?
  | |- consumes (if ?b then _ else _) => destruct b
  | |- consumes (match ?x with _ => _ end) => destruct x
  | |- consumes _ => solve [auto with consumes]
  end.

Ltac solve_consumes := repeat consumes_step.

Section Consumes.
Context `{PyStr} (env : Env).

Lemma consumes_yn prompt default : consumes (yn prompt default).
Proof. unfold yn. solve_consumes. Qed.
#[local] Hint Resolve consumes_yn : consumes.

Lemma consumes_save_state st k : consumes (save_state st k).
Proof. unfold save_state. solve_consumes. Qed.
#[local] Hint Resolve consumes_save_state : consumes.

Lemma consumes_overview_and_save config interactive :
  consumes (overview_and_save env config interactive).
Proof.
  unfold overview_and_save, current_pr_key, gh_view, overview_iteration, load_global.
  solve_consumes.
Qed.
#[local] Hint Resolve consumes_overview_and_save : consumes.

Lemma consumes_load_state_rec depth k : consumes (load_state_rec env depth k).
Proof.
  induction depth as [|depth IH]; simpl; unfold load_config; solve_consumes.
Qed.

Lemma consumes_load_state k : consumes (load_state env k).
Proof. apply consumes_load_state_rec. Qed.
#[local] Hint Resolve consumes_load_state : consumes.

Lemma consumes_cmd_status k : consumes (cmd_status env k).
Proof. unfold cmd_status. solve_consumes. Qed.
#[local] Hint Resolve consumes_cmd_status : consumes.

Lemma consumes_cmd_review p mode k : consumes (cmd_review env p mode k).
Proof.
  unfold cmd_review, run_review_cmd, load_config. solve_consumes.
Qed.
#[local] Hint Resolve consumes_cmd_review : consumes.

Lemma consumes_cmds paths k cmd fn ids :
  cmds env paths k cmd = Some fn → consumes (fn ids).
Proof.
  unfold cmds. intros Hfn.
  repeat (case_bool_decide; [injection Hfn as <-|]); try done;
    unfold print_files, review_files, list_all, list_unreviewed, valid_ids, path_at;
    solve_consumes.
Qed.

(** Beyond the number of lines left to read, the bound on the number of
    turns of the session makes no difference. *)
Lemma session_loop_turns paths k : ∀ turns turns' approved w,
  (length (stdin w) < turns)%nat → (length (stdin w) < turns')%nat →
  session_loop env paths k turns approved w =
    session_loop env paths k turns' approved w.
Proof.
  induction turns as [|turns IH]; intros turns' approved w Hlt Hlt'; [lia|].
  destruct turns' as [|turns']; [lia|]. simpl.
  rewrite !io_bind_eq. unfold input_or_eof, input.
  destruct (stdin w) as [|line rest] eqn:Hin; [done|]. simpl in *.
  destruct (bool_decide (str_strip line = "")); [done|].
  destruct (str_split (str_strip line)) as [|cmd ids]; [done|].
  rewrite !io_bind_eq.
  set (w1 := {| store := store w; stdin := rest; stdout := stdout w ++ [PrSessionPrompt] |}).
  assert (consumes (match cmds env paths k cmd with
                    | Some fn => fn ids
                    | None => print PrUnknownCommand;; mret []
                    end)) as Hcmd.
  { destruct (cmds env paths k cmd) eqn:Hfn; [by eapply consumes_cmds|].
    solve_consumes. }
  specialize (Hcmd w1).
  destruct (match cmds env paths k cmd with
            | Some fn => fn ids
            | None => print PrUnknownCommand;; mret []
            end w1) as [[res|e] w2]; [|done].
  rewrite !io_bind_eq.
  pose proof (consumes_cmd_status k w2) as Hst.
  destruct (cmd_status env k w2) as [[[]|e] w3]; [|done].
  simpl in *. apply IH; lia.
Qed.

End Consumes.

(** ** Sums over the dictionary of files *)


Lemma sum_lines_insert (fs : gmap string FileEntry) p e :
  fs !! p = None → sum_lines (<[p := e]> fs) = lines e + sum_lines fs.
Proof.
  intros Hp. unfold sum_lines.
  rewrite map_fold_insert_L; [done | intros; lia | done].
Qed.

Lemma reviewed_lines_insert (fs : gmap string FileEntry) p e :
  fs !! p = None →
  reviewed_lines (<[p := e]> fs) =
    (if reviewed e then lines e else 0) + reviewed_lines fs.
Proof.
  intros Hp. unfold reviewed_lines.
  rewrite map_fold_insert_L; [by destruct (reviewed e) | | done].
  intros ? ? z1 z2 ? _ _ _. destruct (reviewed z1), (reviewed z2); lia.
Qed.

Lemma unreviewed_count_insert (fs : gmap string FileEntry) p e :
  fs !! p = None →
  unreviewed_count (<[p := e]> fs) =
    (if reviewed e then 0 else 1) + unreviewed_count fs.
Proof.
  intros Hp. unfold unreviewed_count.
  rewrite map_fold_insert_L; [by destruct (reviewed e) | | done].
  intros ? ? z1 z2 ? _ _ _. destruct (reviewed z1), (reviewed z2); lia.
Qed.

(** In a dictionary without a reviewed entry, no line is reviewed and every
    file is left. *)
Lemma unreviewed_sums (fs : gmap string FileEntry) :
  (∀ p e, fs !! p = Some e → reviewed e = false) →
  reviewed_lines fs = 0 ∧ unreviewed_count fs = Z.of_nat (size fs).
Proof.
  induction fs as [|p e fs Hp IH] using map_ind; intros Hall.
  - unfold reviewed_lines, unreviewed_count.
    by rewrite !map_fold_empty, map_size_empty.
  - assert (reviewed e = false) as He.
    { apply (Hall p). by rewrite lookup_insert_eq. }
    destruct IH as [IH1 IH2].
    { intros q e' Hq. apply (Hall q).
      rewrite lookup_insert_ne; [done | congruence]. }
    rewrite reviewed_lines_insert, unreviewed_count_insert by done.
    rewrite map_size_insert_None by done. rewrite He, IH1, IH2. lia.
Qed.

(** ** The state accumulated by the loop of [cmd_overview] *)

Lemma fold_overview_record fl st ps :
  let r := fold_left overview_record fl (st, ps) in
  total_lines r.1 = total_lines st + list_total fl
  ∧ r.2 = ps ++ (path <$> fl)
  ∧ ∀ p, files r.1 !! p =
         match last_entry fl p with Some e => Some e | None => files st !! p end.
Proof.
  revert st ps. induction fl as [|f fl IH]; intros st ps; simpl.
  - split; [lia|]. split; [by rewrite app_nil_r | done].
  - specialize (IH
      {| files := <[path f := {| lines := file_lines f; reviewed := false |}]> (files st);
         total_lines := total_lines st + file_lines f |} (ps ++ [path f])).
    simpl in IH. destruct IH as (Ht & Hps & Hfiles).
    split; [rewrite Ht; simpl; lia|].
    split; [rewrite Hps; by rewrite <- app_assoc|].
    intros p. rewrite Hfiles. unfold last_entry.
    rewrite filter_cons. case_decide as Hpf.
    + destruct (filter (λ f0, path f0 = p) fl) as [|g gs] eqn:Hfl.
      * simpl. subst p. by rewrite lookup_insert_eq.
      * rewrite last_cons_cons.
        destruct (last (g :: gs)) eqn:Hlast; simpl; [done|].
        by apply last_None in Hlast.
    + destruct (last (filter (λ f0, path f0 = p) fl)); simpl; [done|].
      by rewrite lookup_insert_ne.
Qed.

Lemma accumulate_total fl :
  total_lines (overview_accumulate fl).1 = list_total fl.
Proof.
  unfold overview_accumulate.
  pose proof (fold_overview_record fl {| files := ∅; total_lines := 0 |} []) as (Ht & _).
  rewrite Ht. simpl. lia.
Qed.

Lemma accumulate_lookup fl p :
  files (overview_accumulate fl).1 !! p = last_entry fl p.
Proof.
  unfold overview_accumulate.
  pose proof (fold_overview_record fl {| files := ∅; total_lines := 0 |} [])
    as (_ & _ & Hf).
  rewrite Hf. simpl. rewrite lookup_empty. by destruct (last_entry fl p).
Qed.

Lemma accumulate_unreviewed fl p e :
  files (overview_accumulate fl).1 !! p = Some e →
  reviewed e = false ∧ ∃ f, f ∈ fl ∧ path f = p ∧ lines e = file_lines f.
Proof.
  rewrite accumulate_lookup. unfold last_entry.
  destruct (last (filter (λ f, path f = p) fl)) as [f|] eqn:Hl; simpl; [|done].
  intros [= <-]. split; [done|]. exists f.
  apply last_Some_elem_of in Hl. apply list_elem_of_filter in Hl as [? ?]. done.
Qed.

(** ** [cmd_overview] *)

(** No [reviewed] is bound at module level. *)
Lemma load_global_reviewed :
  load_global "reviewed" = raise (NameError "reviewed").
Proof. reflexivity. Qed.

Section OverviewFacts.
Context `{PyStr} (env : Env).

Ltac header_cases config data :=
  unfold overview_header;
  destruct (find_jira _);
  [destruct (jira_base config) as [base|];
   [destruct (bool_decide (base = ""))|]|];
  destruct (bool_decide (str_strip (body data) = ""));
  io_simpl; unfold emit; simpl; rewrite <- ?app_assoc; simpl.

(** For an empty file list the overview saves the empty state. *)
Lemma overview_and_save_empty config interactive pr_key data w :
  pr_number env = Some pr_key →
  pr_view env = Some data →
  pr_files data = [] →
  overview_and_save env config interactive w =
    (Return ([], pr_key),
     {| store := <[pr_key := {| files := ∅; total_lines := 0 |}]> (store w);
        stdin := stdin w;
        stdout := stdout w ++ overview_header config data
                  ++ [PrKey pr_key; PrStateFile pr_key; PrTotal 0 0] |}).
Proof.
  intros Hk Hd Hfl. unfold overview_and_save, current_pr_key, gh_view, save_state.
  rewrite Hk, Hd. io_unfold. simpl. rewrite Hfl. simpl.
  header_cases config data; done.
Qed.

(** For any other file list the first iteration of the loop raises
    [NameError] at line 147, before [save_state] is reached. *)
Lemma overview_and_save_nonempty config interactive pr_key data f fl w :
  pr_number env = Some pr_key →
  pr_view env = Some data →
  pr_files data = f :: fl →
  overview_and_save env config interactive w =
    (Raise (NameError "reviewed"),
     {| store := store w; stdin := stdin w;
        stdout := stdout w ++ overview_header config data |}).
Proof.
  intros Hk Hd Hfl. unfold overview_and_save, current_pr_key, gh_view, save_state.
  rewrite Hk, Hd. io_unfold. simpl. rewrite Hfl. simpl.
  header_cases config data; done.
Qed.

Lemma cmd_overview_nonempty config interactive pr_key data f fl w :
  pr_number env = Some pr_key →
  pr_view env = Some data →
  pr_files data = f :: fl →
  cmd_overview env config interactive w =
    (Raise (NameError "reviewed"),
     {| store := store w; stdin := stdin w;
        stdout := stdout w ++ overview_header config data |}).
Proof.
  intros Hk Hd Hfl. unfold cmd_overview.
  unfold mbind at 1, IO_bind at 1.
  by rewrite (overview_and_save_nonempty _ _ _ _ _ _ _ Hk Hd Hfl).
Qed.

End OverviewFacts.

(** ** Double arithmetic: the quotient, its product with 100, the truncation *)

Lemma digits2_pos_bounds p :
  2 ^ (Z.pos (digits2_pos p) - 1) ≤ Z.pos p < 2 ^ Z.pos (digits2_pos p).
Proof.
  induction p as [p IH|p IH|]; simpl digits2_pos.
  - rewrite Pos2Z.inj_succ.
    replace (Z.succ (Z.pos (digits2_pos p)) - 1) with (Z.succ (Z.pos (digits2_pos p) - 1)) by lia.
    rewrite !Z.pow_succ_r by lia. lia.
  - rewrite Pos2Z.inj_succ.
    replace (Z.succ (Z.pos (digits2_pos p)) - 1) with (Z.succ (Z.pos (digits2_pos p) - 1)) by lia.
    rewrite !Z.pow_succ_r by lia. lia.
  - simpl. lia.
Qed.

Lemma Zdigits2_bounds m :
  0 < m → 2 ^ (Zdigits2 m - 1) ≤ m < 2 ^ Zdigits2 m ∧ 0 < Zdigits2 m.
Proof.
  destruct m as [|p|p]; try lia. intros _. simpl.
  split; [apply digits2_pos_bounds | lia].
Qed.

Lemma Zdigits2_unique m d :
  0 < m → 2 ^ (d - 1) ≤ m < 2 ^ d → Zdigits2 m = d.
Proof.
  intros Hm [Hlo Hhi].
  destruct (Zdigits2_bounds m Hm) as [[Hlo' Hhi'] Hpos].
  assert (0 < d).
  { destruct (Z_lt_le_dec 0 d); [done|].
    assert (2 ^ d ≤ 2 ^ 0) by (apply Z.pow_le_mono_r; lia). simpl in *. lia. }
  assert (d - 1 < Zdigits2 m).
  { apply (Z.pow_lt_mono_r_iff 2); lia. }
  assert (Zdigits2 m - 1 < d).
  { apply (Z.pow_lt_mono_r_iff 2); lia. }
  lia.
Qed.

Lemma shr_1_inv A B k mrs :
  0 ≤ k → 0 < B → shr_inv A B k mrs → shr_inv A B (k + 1) (shr_1 mrs).
Proof.
  intros Hk HB. unfold shr_inv. destruct mrs as [m r s]. simpl.
  rewrite Z.pow_add_r by lia. change (2 ^ 1) with 2.
  assert (0 < 2 ^ k * B) as HP by (apply Z.mul_pos_pos; [apply Z.pow_pos_nonneg|]; lia).
  replace (2 ^ k * 2 * B) with (2 * (2 ^ k * B)) by ring.
  generalize dependent (2 ^ k * B). intros P HP (Hm & HR & Hr & Hs).
  destruct m as [|[p|p|]|p]; simpl; try lia.
  - destruct r, s; simpl; repeat split; intros; try lia;
     try (destruct Hr; destruct Hs; lia).
  - replace (Z.pos p~1) with (2 * Z.pos p + 1) in * by lia.
    destruct r, s; simpl; repeat split; intros; try lia;
     try (destruct Hr; destruct Hs; lia).
  - replace (Z.pos p~0) with (2 * Z.pos p) in * by lia.
    destruct r, s; simpl; repeat split; intros; try lia;
     try (destruct Hr; destruct Hs; lia).
  - destruct r, s; simpl; repeat split; intros; try lia;
     try (destruct Hr; destruct Hs; lia).
Qed.

Lemma iter_shr_inv A B p : ∀ k mrs,
  0 ≤ k → 0 < B → shr_inv A B k mrs →
  shr_inv A B (k + Z.pos p) (SpecFloat.iter_pos shr_1 p mrs).
Proof.
  induction p as [p IH|p IH|]; intros k mrs Hk HB Hinv; simpl.
  - replace (k + Z.pos p~1) with (((k + 1) + Z.pos p) + Z.pos p) by lia.
    apply IH; [lia|done|]. apply IH; [lia|done|]. by apply shr_1_inv.
  - replace (k + Z.pos p~0) with ((k + Z.pos p) + Z.pos p) by lia.
    apply IH; [lia|done|]. by apply IH.
  - by apply shr_1_inv.
Qed.

Lemma shr_spec A B mrs e n :
  0 ≤ n → 0 < B → shr_inv A B 0 mrs →
  ∃ mrs', shr mrs e n = (mrs', e + n) ∧ shr_inv A B n mrs'.
Proof.
  intros Hn HB Hinv. destruct n as [|p|p]; simpl; try lia.
  - exists mrs. by rewrite Z.add_0_r.
  - exists (SpecFloat.iter_pos shr_1 p mrs). split; [done|].
    by apply (iter_shr_inv A B p 0 mrs).
Qed.

Lemma shr_record_of_loc_inv A B m l :
  0 ≤ m → 0 < B → loc_inv A B m l → shr_inv A B 0 (shr_record_of_loc m l).
Proof.
  intros Hm HB [HR Hl]. unfold shr_inv. change (2 ^ 0) with 1.
  rewrite !Z.mul_1_l.
  destruct l as [|[| |]]; simpl; repeat split; intros; try lia; try done.
Qed.

Lemma loc_of_shr_record_inv A B k mrs :
  0 ≤ k → 0 < B → shr_inv A B k mrs →
  loc_inv A (2 ^ k * B) (shr_m mrs) (loc_of_shr_record mrs).
Proof.
  intros Hk HB (Hm & HR & Hr & Hs). unfold loc_inv. split; [done|].
  destruct mrs as [m [|] [|]]; simpl in *.
  - assert (2 ^ k * B ≤ 2 * (A - m * (2 ^ k * B))) by tauto.
    assert (A - m * (2 ^ k * B) ≠ 0 ∧ 2 * (A - m * (2 ^ k * B)) ≠ 2 ^ k * B) by tauto.
    lia.
  - assert (2 ^ k * B ≤ 2 * (A - m * (2 ^ k * B))) by tauto.
    destruct (Z.eq_dec (2 * (A - m * (2 ^ k * B))) (2 ^ k * B)); [done|].
    assert (true = false); [|done]. symmetry. apply Hs. lia.
  - assert (¬ 2 ^ k * B ≤ 2 * (A - m * (2 ^ k * B))) by (intros ?; by apply Hr in H).
    assert (A - m * (2 ^ k * B) ≠ 0 ∧ 2 * (A - m * (2 ^ k * B)) ≠ 2 ^ k * B) by tauto.
    lia.
  - assert (¬ 2 ^ k * B ≤ 2 * (A - m * (2 ^ k * B))) by (intros ?; by apply Hr in H).
    destruct (Z.eq_dec (A - m * (2 ^ k * B)) 0); [done|].
    assert (false = true); [|done]. apply Hs. lia.
Qed.

(** Rounding to nearest moves to one of the two neighbours and is off by
    at most half a unit. *)
Lemma round_nearest_even_spec A B m l :
  0 < B → loc_inv A B m l →
  let m' := round_nearest_even m l in
  (m' = m ∨ m' = m + 1) ∧ 2 * Z.abs (A - m' * B) ≤ B.
Proof.
  intros HB [HR Hl]. unfold round_nearest_even.
  destruct l as [|[| |]]; simpl.
  - split; [by left|lia].
  - destruct (Z.even m); split; auto; lia.
  - split; [by left|lia].
  - split; [by right|lia].
Qed.

Lemma fexp_normal e : -1074 ≤ e - 53 → fexp prec emax e = e - 53.
Proof. unfold fexp, emin, prec, emax. lia. Qed.

Lemma shr_fexp_spec A B m e l :
  0 < m → 0 < B → loc_inv A B m l →
  53 ≤ Zdigits2 m → -1074 ≤ Zdigits2 m + e - 53 →
  ∃ mrs, shr_fexp prec emax m e l = (mrs, Zdigits2 m + e - 53)
         ∧ shr_inv A B (Zdigits2 m - 53) mrs.
Proof.
  intros Hm HB Hl Hd He. unfold shr_fexp. rewrite fexp_normal by done.
  destruct (shr_spec A B (shr_record_of_loc m l) e (Zdigits2 m + e - 53 - e))
    as (mrs & Heq & Hinv); [lia|done| |].
  { apply shr_record_of_loc_inv; [lia|done|done]. }
  exists mrs. rewrite Heq. split; [f_equal; lia|].
  by replace (Zdigits2 m - 53) with (Zdigits2 m + e - 53 - e) by lia.
Qed.

(** Rounding a quotient [A / B] given by its integer part [mx] of at least
    53 bits, at exponent [ex], and the location of the rest: the result is a
    normal double whose mantissa is off by at most half a unit in the last
    place. *)
Lemma binary_round_aux_spec A B sx mx ex lx :
  0 < mx → 0 < B → loc_inv A B mx lx →
  53 ≤ Zdigits2 mx →
  -1074 ≤ Zdigits2 mx + ex - 53 →
  Zdigits2 mx + ex - 52 ≤ 971 →
  ∃ m k,
    binary_round_aux prec emax sx mx ex lx = S754_finite sx m (ex + k)
    ∧ 2 ^ 52 ≤ Z.pos m < 2 ^ 53
    ∧ (k = Zdigits2 mx - 53 ∨ k = Zdigits2 mx - 52)
    ∧ 2 * Z.abs (A - Z.pos m * (2 ^ k * B)) ≤ 2 ^ k * B.
Proof.
  intros Hmx HB Hl Hd Hlo Hhi. unfold binary_round_aux.
  destruct (shr_fexp_spec A B mx ex lx Hmx HB Hl Hd Hlo) as (mrs & -> & Hinv).
  set (k := Zdigits2 mx - 53) in *.
  assert (0 ≤ k) as Hk by (unfold k; lia).
  assert (0 < 2 ^ k) as HP by (apply Z.pow_pos_nonneg; lia).
  pose proof (loc_of_shr_record_inv A B k mrs Hk HB Hinv) as Hloc.
  assert (0 < 2 ^ k * B) as HPB by (apply Z.mul_pos_pos; lia).
  destruct (round_nearest_even_spec A (2 ^ k * B) (shr_m mrs)
              (loc_of_shr_record mrs) HPB Hloc) as [Hm1 Herr].
  set (m1 := round_nearest_even (shr_m mrs) (loc_of_shr_record mrs)) in *.
  (* the shifted mantissa has 53 bits *)
  assert (2 ^ 52 ≤ shr_m mrs < 2 ^ 53) as Hm'.
  { destruct (Zdigits2_bounds mx Hmx) as [[Hlo' Hhi'] _].
    replace (Zdigits2 mx) with (k + 53) in Hhi' by (unfold k; lia).
    replace (Zdigits2 mx - 1) with (k + 52) in Hlo' by (unfold k; lia).
    rewrite Z.pow_add_r in Hlo', Hhi' by lia.
    destruct Hl as [HR _]. destruct Hinv as (_ & HR' & _).
    generalize dependent (2 ^ k). intros P. intros.
    generalize dependent (shr_m mrs). intros m'. intros.
    split; nia. }
  replace (Zdigits2 mx + ex - 53) with (ex + k) by (unfold k; lia).
  assert (emax - prec = 971) as -> by reflexivity.
  destruct (Z.eq_dec m1 (2 ^ 53)) as [Hcarry|Hnocarry].
  - (* the rounding carried into a 54th bit *)
    rewrite Hcarry. unfold shr_fexp.
    change (Zdigits2 (2 ^ 53)) with 54.
    rewrite fexp_normal by lia.
    replace (54 + (ex + k) - 53 - (ex + k)) with 1 by lia.
    change (2 ^ 53) with 9007199254740992.
    cbn [shr shr_record_of_loc SpecFloat.iter_pos shr_1 shr_m].
    rewrite (proj2 (Z.leb_le _ _)) by (unfold k; lia).
    exists 4503599627370496%positive, (k + 1).
    split; [f_equal; lia|]. split; [done|]. split; [right; unfold k; lia|].
    rewrite Z.pow_add_r by lia. change (2 ^ 1) with 2.
    rewrite Hcarry in Herr. change (2 ^ 53) with 9007199254740992 in Herr.
    lia.
  - assert (2 ^ 52 ≤ m1 < 2 ^ 53) as Hm1r by lia.
    unfold shr_fexp. rewrite (Zdigits2_unique m1 53) by (simpl; lia).
    rewrite fexp_normal by lia.
    replace (53 + (ex + k) - 53 - (ex + k)) with 0 by lia.
    cbn [shr shr_record_of_loc shr_m].
    destruct m1 as [|p1|p1] eqn:Hp1; try lia.
    rewrite (proj2 (Z.leb_le _ _)) by (unfold k; lia).
    exists p1, k. split; [done|]. split; [done|]. split; [by left|done].
Qed.

Lemma new_location_spec t q rem :
  0 ≤ rem < t → loc_inv (q * t + rem) t q (new_location t rem).
Proof.
  intros Hrem. unfold loc_inv. replace (q * t + rem - q * t) with rem by lia.
  split; [done|]. unfold new_location, new_location_even, new_location_odd.
  destruct (Z.even t) eqn:Heven.
  - destruct (Z.eqb_spec rem 0); [done|].
    destruct (Z.compare_spec (2 * rem) t); lia.
  - destruct (Z.eqb_spec rem 0); [done|].
    assert (Z.odd t = true) as Hodd by (by rewrite <- Z.negb_even, Heven).
    apply Z.odd_spec in Hodd as [j Hj].
    destruct (Z.compare_spec (2 * rem + 1) t); lia.
Qed.

Lemma Zdigits2_mono a b : 0 < a → a ≤ b → Zdigits2 a ≤ Zdigits2 b.
Proof.
  intros Ha Hab.
  destruct (Zdigits2_bounds a Ha) as [[Hlo _] Hpa].
  destruct (Zdigits2_bounds b) as [[_ Hhi] Hpb]; [lia|].
  assert (Zdigits2 a - 1 < Zdigits2 b); [|lia].
  apply (Z.pow_lt_mono_r_iff 2); lia.
Qed.

(** The quotient of two positive integers [r ≤ t] as a double. *)
Lemma SFdiv_spec (r t : positive) :
  Z.pos r ≤ Z.pos t → Z.pos t < 2 ^ 1000 →
  ∃ m e,
    SFdiv prec emax (S754_finite false r 0) (S754_finite false t 0) =
      S754_finite false m e
    ∧ 2 ^ 52 ≤ Z.pos m < 2 ^ 53
    ∧ -1060 ≤ e ≤ -51
    ∧ 2 * Z.abs (Z.pos r * 2 ^ (- e) - Z.pos m * Z.pos t) ≤ Z.pos t.
Proof.
  intros Hrt Ht. unfold SFdiv, SFdiv_core_binary.
  set (d1 := Zdigits2 (Z.pos r)). set (d2 := Zdigits2 (Z.pos t)).
  destruct (Zdigits2_bounds (Z.pos r)) as [[Hr1 Hr2] Hd1]; [lia|].
  destruct (Zdigits2_bounds (Z.pos t)) as [[Ht1 Ht2] Hd2]; [lia|].
  fold d1 in Hr1, Hr2, Hd1. fold d2 in Ht1, Ht2, Hd2.
  assert (d1 ≤ d2) as Hd12 by (apply Zdigits2_mono; lia).
  assert (d2 ≤ 1000) as Hd2'.
  { assert (d2 - 1 < 1000); [|lia]. apply (Z.pow_lt_mono_r_iff 2); lia. }
  rewrite fexp_normal by lia.
  replace (Z.min (d1 + 0 - (d2 + 0) - 53) (0 - 0)) with (d1 - d2 - 53) by lia.
  replace (0 - 0 - (d1 - d2 - 53)) with (53 + d2 - d1) by lia.
  destruct (53 + d2 - d1) as [|s|s] eqn:Hs; try lia.
  rewrite Z.shiftl_mul_pow2 by lia.
  pose proof (Z_div_mod (Z.pos r * 2 ^ Z.pos s) (Z.pos t)) as Hdiv.
  destruct (Z.div_eucl (Z.pos r * 2 ^ Z.pos s) (Z.pos t)) as [q rem].
  destruct Hdiv as [Hq Hrem]; [lia|].
  (* the quotient has 53 or 54 bits *)
  assert (2 ^ 52 ≤ q < 2 ^ 54) as Hqb.
  { assert (2 ^ (d1 - 1) * 2 ^ Z.pos s = 2 ^ 52 * 2 ^ d2) as E1.
    { rewrite <- !Z.pow_add_r by lia. f_equal. lia. }
    assert (2 ^ d1 * 2 ^ Z.pos s = 2 ^ 54 * 2 ^ (d2 - 1)) as E2.
    { rewrite <- !Z.pow_add_r by lia. f_equal. lia. }
    assert (0 < 2 ^ Z.pos s) by (apply Z.pow_pos_nonneg; lia).
    split; nia. }
  assert (53 ≤ Zdigits2 q ≤ 54) as Hdq.
  { destruct (Zdigits2_bounds q) as [[Hq1 Hq2] Hq3]; [lia|].
    split.
    - assert (52 < Zdigits2 q); [|lia]. apply (Z.pow_lt_mono_r_iff 2); lia.
    - assert (Zdigits2 q - 1 < 54); [|lia].
      apply (Z.pow_lt_mono_r_iff 2); lia. }
  destruct (binary_round_aux_spec (Z.pos r * 2 ^ Z.pos s) (Z.pos t)
              (xorb false false) q (d1 - d2 - 53) (new_location (Z.pos t) rem))
    as (m & k & Heq & Hm & Hk & Herr); try lia.
  { rewrite Hq. replace (Z.pos t * q + rem) with (q * Z.pos t + rem) by lia.
    by apply new_location_spec. }
  exists m, (d1 - d2 - 53 + k). split; [exact Heq|]. split; [done|].
  split; [lia|].
  replace (- (d1 - d2 - 53 + k)) with (Z.pos s - k) by lia.
  assert (0 ≤ k ≤ 2) as Hk2 by lia.
  replace (Z.pos s) with ((Z.pos s - k) + k) in Herr by lia.
  rewrite Z.pow_add_r in Herr by lia.
  assert (0 < 2 ^ k) by (apply Z.pow_pos_nonneg; lia).
  generalize dependent (2 ^ k). intros P. intros.
  generalize dependent (2 ^ (Z.pos s - k)). intros S. intros.
  nia.
Qed.

Lemma hundred_as_double :
  binary_normalize prec emax 100 0 false =
    S754_finite false 7036874417766400 (-46).
Proof. reflexivity. Qed.

(** A normal double in (0, 1] times 100. *)
Lemma mul_hundred_spec (m : positive) e :
  2 ^ 52 ≤ Z.pos m < 2 ^ 53 → -1060 ≤ e ≤ -51 →
  ∃ m2 k,
    py_float_mul_int (S754_finite false m e) 100 =
      S754_finite false m2 (e - 46 + k)
    ∧ 52 ≤ k ≤ 54
    ∧ 2 * Z.abs (Z.pos m * (100 * 2 ^ 46) - Z.pos m2 * 2 ^ k) ≤ 2 ^ k.
Proof.
  intros Hm He. unfold py_float_mul_int. rewrite hundred_as_double.
  unfold SFmul.
  assert (2 ^ 104 ≤ Z.pos (m * 7036874417766400) < 2 ^ 106) as Hprod.
  { rewrite Pos2Z.inj_mul. change (2 ^ 52) with 4503599627370496 in Hm.
    change (2 ^ 53) with 9007199254740992 in Hm.
    change (2 ^ 104) with 20282409603651670423947251286016.
    change (2 ^ 106) with 81129638414606681695789005144064. lia. }
  assert (105 ≤ Zdigits2 (Z.pos (m * 7036874417766400)) ≤ 106) as Hd.
  { destruct (Zdigits2_bounds (Z.pos (m * 7036874417766400))) as [[H1 H2] H3]; [lia|].
    split.
    - assert (104 < Zdigits2 (Z.pos (m * 7036874417766400))); [|lia].
      apply (Z.pow_lt_mono_r_iff 2); lia.
    - assert (Zdigits2 (Z.pos (m * 7036874417766400)) - 1 < 106); [|lia].
      apply (Z.pow_lt_mono_r_iff 2); lia. }
  destruct (binary_round_aux_spec (Z.pos (m * 7036874417766400)) 1
              (xorb false false) (Z.pos (m * 7036874417766400)) (e + -46) loc_Exact)
    as (m2 & k & Heq & Hm2 & Hk & Herr); try lia.
  { unfold loc_inv; lia. }
  exists m2, k. split.
  { rewrite Heq. f_equal; lia. }
  split; [lia|].
  rewrite Z.mul_1_r in Herr. rewrite Pos2Z.inj_mul in Herr.
  change (100 * 2 ^ 46) with 7036874417766400. lia.
Qed.

(** The arithmetic of the two roundings: [M / X] is the quotient [R / T]
    rounded, [M2 * K / (D * K)] is its product with 100 rounded, and
    [M2 / D] is that product truncated. *)
Lemma percent_arith R T F G M M2 X K D :
  0 < T ≤ 8796093022208 → 0 ≤ R →
  100 * R = T * F + G → 0 ≤ G < T →
  0 < D → 4503599627370496 ≤ K ≤ 18014398509481984 →
  2251799813685248 ≤ X →
  D * K = X * 70368744177664 →
  2 * Z.abs (R * X - M * T) ≤ T →
  2 * Z.abs (M * 7036874417766400 - M2 * K) ≤ K →
  F - 1 ≤ M2 / D ≤ F ∧ (G ≠ 0 → M2 / D = F).
Proof.
  intros HT HR HF HG HD HK HX HDK Herr1 Herr2.
  assert (2 * (R * X) - T ≤ 2 * (M * T) ≤ 2 * (R * X) + T) as H1 by lia.
  assert (2 * (M * 7036874417766400) - K ≤ 2 * (M2 * K)
          ≤ 2 * (M * 7036874417766400) + K) as H2 by lia.
  assert (0 < 2 * (T * K)) as HTK.
  { apply Z.mul_pos_pos; [lia|]. apply Z.mul_pos_pos; lia. }
  assert (T * K ≤ 8796093022208 * 18014398509481984) as HTKu.
  { apply Z.mul_le_mono_nonneg; lia. }
  assert (T * (2 * (M * 7036874417766400) - K) ≤ T * (2 * (M2 * K))) as H3
    by (apply Z.mul_le_mono_nonneg_l; lia).
  assert (T * (2 * (M2 * K)) ≤ T * (2 * (M * 7036874417766400) + K)) as H4
    by (apply Z.mul_le_mono_nonneg_l; lia).
  assert ((T * F) * X ≤ (100 * R) * X) as H5
    by (apply Z.mul_le_mono_nonneg_r; lia).
  assert ((100 * R) * X ≤ (T * (F + 1) - 1) * X) as H6
    by (apply Z.mul_le_mono_nonneg_r; lia).
  assert (T * 2251799813685248 ≤ T * X) as H7
    by (apply Z.mul_le_mono_nonneg_l; lia).
  (* both sides are compared after a multiplication by [2 * T * K] *)
  assert (∀ n, 2 * T * (D * K * n) ≤ 2 * T * (M2 * K) → n ≤ M2 / D) as Hlow.
  { intros n Hn. apply Z.div_le_lower_bound; [lia|].
    apply (Z.mul_le_mono_pos_r _ _ (2 * (T * K))); [done|].
    replace (D * n * (2 * (T * K))) with (2 * T * (D * K * n)) by ring.
    replace (M2 * (2 * (T * K))) with (2 * T * (M2 * K)) by ring.
    done. }
  assert (M2 / D < F + 1) as Hupper.
  { apply Z.div_lt_upper_bound; [lia|].
    apply (Z.mul_lt_mono_pos_r (2 * (T * K))); [done|].
    replace (D * (F + 1) * (2 * (T * K))) with (2 * T * (D * K * (F + 1))) by ring.
    replace (M2 * (2 * (T * K))) with (2 * T * (M2 * K)) by ring.
    rewrite HDK. lia. }
  split; [split; [|lia]|].
  - apply Hlow. rewrite HDK. lia.
  - intros HG0. assert (F ≤ M2 / D); [|lia].
    apply Hlow. rewrite HDK.
    assert ((T * F + 1) * X ≤ (100 * R) * X) as H8
      by (apply Z.mul_le_mono_nonneg_r; lia).
    lia.
Qed.

(** The percentage of [cmd_status] for [0 ≤ reviewed ≤ total]: no
    exception, and the exact percentage rounded down, or one less when the
    exact percentage is an integer. *)
Lemma percent_reviewed_bounds r t :
  0 ≤ r ≤ t → 0 < t ≤ 2 ^ 43 →
  ∃ p, percent_reviewed r t = Return p
       ∧ 100 * r / t - 1 ≤ p ≤ 100 * r / t
       ∧ ((100 * r) `mod` t ≠ 0 → p = 100 * r / t).
Proof.
  intros Hr Ht. unfold percent_reviewed, py_truediv.
  rewrite !decide_False by lia.
  destruct t as [|t|t]; try lia.
  destruct r as [|r|r]; try lia.
  - exists 0. split; [reflexivity|]. rewrite Z.mul_0_r, Z.div_0_l by lia.
    split; [lia|done].
  - cbn [float_of_int].
    destruct (SFdiv_spec r t) as (m & e & -> & Hm & He & Herr1); [lia| |].
    { assert (2 ^ 43 < 2 ^ 1000) by (apply Z.pow_lt_mono_r; lia). lia. }
    destruct (mul_hundred_spec m e Hm He) as (m2 & k & -> & Hk & Herr2).
    unfold py_int_of_float. rewrite decide_False by lia. cbn [cond_Zopp].
    eexists. split; [reflexivity|].
    replace (- (e - 46 + k)) with (- e + 46 - k) by lia.
    apply (percent_arith (Z.pos r) (Z.pos t) _ _ (Z.pos m) (Z.pos m2)
             (2 ^ (- e)) (2 ^ k) (2 ^ (- e + 46 - k))).
    + change (2 ^ 43) with 8796093022208 in Ht. lia.
    + lia.
    + rewrite Z.mul_comm. apply Z.div_mod. lia.
    + apply Z.mod_pos_bound. lia.
    + apply Z.pow_pos_nonneg; lia.
    + change 4503599627370496 with (2 ^ 52).
      change 18014398509481984 with (2 ^ 54).
      split; apply Z.pow_le_mono_r; lia.
    + change 2251799813685248 with (2 ^ 51). apply Z.pow_le_mono_r; lia.
    + change 70368744177664 with (2 ^ 46).
      rewrite <- !Z.pow_add_r by lia. f_equal. lia.
    + exact Herr1.
    + change 7036874417766400 with (100 * 2 ^ 46). exact Herr2.
Qed.

(** ** [cmd_status] *)

Lemma cmd_status_found `{PyStr} env pr_key st w :
  store w !! pr_key = Some st →
  cmd_status env pr_key w =
    match percent_reviewed (reviewed_lines (files st)) (total_lines st) with
    | Return pct =>
        (Return (),
         emit (PrStatus (total_lines st - reviewed_lines (files st)) pct
                        (unreviewed_count (files st))) w)
    | Raise e => (Raise e, w)
    end.
Proof.
  intros Hst. unfold cmd_status.
  unfold mbind at 1, IO_bind at 1. rewrite (load_state_found _ _ _ _ Hst).
  io_unfold. by destruct (percent_reviewed _ _).
Qed.

(** The truncation is that of the double, not of the exact quotient: 29 of
    100 lines give 28 percent, since the double nearest to 29/100 times 100
    rounds to 28.999999999999996. *)
Lemma percent_29_of_100 : percent_reviewed 29 100 = Return 28.
Proof. vm_compute. reflexivity. Qed.

(** ** Selector validation *)

Lemma all_digit_chars_ascii s :
  ascii_text s → all_digit_chars s = all_ascii_digits s.
Proof.
  unfold ascii_text. induction s as [|a s IH]; simpl; [done|].
  intros Hs. apply Forall_cons in Hs as [Ha Hs].
  destruct (is_ascii_digit a); simpl; [by apply IH|].
  destruct (Ascii.N_of_ascii a =? 194)%N eqn:Hc; [|done].
  apply N.eqb_eq in Hc. lia.
Qed.

#[local] Instance ascii_str_digits : PyStrDigits (H:=ascii_str).
Proof.
  split.
  - intros s Hs. simpl. unfold ascii_isdigit, ascii_digits.
    by rewrite all_digit_chars_ascii.
  - intros s Hs _. simpl. unfold ascii_int. by rewrite Hs.
  - reflexivity.
  - reflexivity.
Qed.

Section Selectors.
Context `{PyStr} `{!PyStrDigits} (paths : list string).

(** On tokens of ASCII characters [valid_ids] runs the body for the valid
    tokens and prints a diagnostic for each other one. *)
Lemma valid_ids_ascii {S : Type} (body : S → string → IO S) ids :
  Forall plain_token ids →
  ∀ s w,
    valid_ids paths body s ids w =
      for_each (λ s i, if valid_token (length paths) i then body s i
                       else print (PrInvalidId i);; mret s) s ids w.
Proof.
  induction ids as [|i ids IH]; intros Hids s w; [done|].
  apply Forall_cons in Hids as [[Hi Hlen] Hids].
  unfold valid_ids in *. cbn [for_each].
  rewrite !io_bind_eq.
  assert ((if negb (str_isdigit i) then print (PrInvalidId i);; mret s
           else match str_int i with
                | Some n =>
                    if negb (bool_decide (1 ≤ n ≤ Z.of_nat (length paths)))
                    then print (PrInvalidId i);; mret s
                    else body s i
                | None => raise ValueError
                end) w =
          (if valid_token (length paths) i then body s i
           else print (PrInvalidId i);; mret s) w) as ->.
  { unfold valid_token. rewrite (isdigit_ascii i Hi).
    destruct (ascii_digits i) eqn:Hd; simpl; [|done].
    rewrite (int_ascii_digits i Hd Hlen).
    by destruct (bool_decide (1 ≤ decimal_value i ≤ Z.of_nat (length paths))). }
  destruct ((if valid_token (length paths) i then body s i
             else print (PrInvalidId i);; mret s) w) as [[s'|e] w']; [|done].
  by apply IH.
Qed.

(** The path of a valid token. *)
Lemma path_at_valid i w :
  plain_token i →
  valid_token (length paths) i = true →
  ∃ p, paths !! Z.to_nat (decimal_value i - 1) = Some p
       ∧ path_at paths i w = (Return p, w).
Proof.
  unfold valid_token. intros [_ Hlen] [Hd Hr]%andb_prop.
  apply bool_decide_eq_true in Hr.
  destruct (lookup_lt_is_Some_2 paths (Z.to_nat (decimal_value i - 1)))
    as [p Hp]; [lia|].
  exists p. split; [done|]. unfold path_at.
  rewrite (int_ascii_digits i Hd Hlen). cbv zeta.
  rewrite (decide_False (P := decimal_value i - 1 < 0)) by lia.
  rewrite decide_True by lia.
  by rewrite Hp.
Qed.

(** [print_files] on tokens of ASCII characters: no exception, one line
    per token, in order. *)
Lemma print_files_ascii ids w :
  Forall plain_token ids →
  print_files paths ids w =
    (Return (),
     {| store := store w; stdin := stdin w;
        stdout := stdout w ++ print_files_events paths ids |}).
Proof.
  intros Hids. unfold print_files. rewrite valid_ids_ascii by done.
  revert w. induction ids as [|i ids IH]; intros w.
  - simpl. unfold mret, IO_ret. destruct w; simpl. by rewrite app_nil_r.
  - apply Forall_cons in Hids as [Hi Hids]. specialize (IH Hids).
    cbn [for_each]. unfold mbind at 1, IO_bind at 1.
    unfold print_files_events. rewrite fmap_cons.
    destruct (valid_token (length paths) i) eqn:Hv.
    + destruct (path_at_valid i w Hi Hv) as (p & Hp & Hat).
      unfold mbind at 1, IO_bind at 1. rewrite Hat. rewrite Hp. simpl.
      unfold print at 1. rewrite IH. unfold emit. simpl.
      by rewrite <- app_assoc.
    + unfold mbind at 1, IO_bind at 1, print at 1, mret at 1, IO_ret at 1.
      rewrite IH. unfold emit. simpl. by rewrite <- app_assoc.
Qed.

End Selectors.

(** The same two lists of tokens typed in a session over three files. *)
Example session_print_selectors :
  let r := _interactive_session (H:=ascii_str) (sample_env [])
             ["x.c"; "y.c"; "z.c"] "42" (world_with ten_thirty ["p 1 9 x 2"]) in
  r.1 = Return ()
  ∧ stdout r.2 =
      [PrCommands; PrSessionPrompt; PrFullPath "x.c"; PrInvalidId "9";
       PrInvalidId "x"; PrFullPath "y.c"; PrStatus 30 25 1; PrSessionPrompt;
       PrNewline].
Proof. vm_compute. split; reflexivity. Qed.

Example session_superscript_selector :
  let r := _interactive_session (H:=ascii_str) (sample_env [])
             ["x.c"; "y.c"; "z.c"] "42"
             (world_with ten_thirty ["p 1 ² 2"; "ls"]) in
  r.1 = Raise ValueError
  ∧ stdout r.2 = [PrCommands; PrSessionPrompt; PrFullPath "x.c"]
  ∧ stdin r.2 = ["ls"].
Proof. vm_compute. repeat split; reflexivity. Qed.

(** ** The order of progress *)

Lemma progress_le_refl st : progress_le st st.
Proof.
  split; [done|]. intros q. by destruct (files st !! q).
Qed.

Lemma progress_le_trans st1 st2 st3 :
  progress_le st1 st2 → progress_le st2 st3 → progress_le st1 st3.
Proof.
  intros [Ht1 H1] [Ht2 H2]. split; [congruence|]. intros q.
  specialize (H1 q). specialize (H2 q).
  destruct (files st1 !! q), (files st2 !! q), (files st3 !! q); try done.
  destruct H1 as [? ?], H2 as [? ?]. split; [congruence|auto].
Qed.

Lemma continues_refl s k st : s !! k = Some st → continues s k s.
Proof.
  intros Hk. split; [|done]. exists st, st. split; [done|]. split; [done|].
  apply progress_le_refl.
Qed.

Lemma continues_trans s1 s2 s3 k :
  continues s1 k s2 → continues s2 k s3 → continues s1 k s3.
Proof.
  intros [(a & b & Ha & Hb & Hab) H1] [(b' & c & Hb' & Hc & Hbc) H2].
  split.
  - exists a, c. split; [done|]. split; [done|].
    rewrite Hb in Hb'. injection Hb' as <-. by eapply progress_le_trans.
  - intros k' Hk'. by rewrite H2, H1.
Qed.

Lemma reviewed_in_continues s s' k p :
  continues s k s' → reviewed_in s k p → reviewed_in s' k p.
Proof.
  intros [(st0 & st & H0 & H1 & [_ Hq]) _] (st0' & e & Hst & He & Hr).
  rewrite H0 in Hst. injection Hst as <-. specialize (Hq p). rewrite He in Hq.
  destruct (files st !! p) as [e'|] eqn:He'; [|done].
  exists st, e'. destruct Hq as [_ Hq]. auto.
Qed.

(** Marking a file that is in the state continues the state. *)
Lemma progress_le_mark st p e :
  files st !! p = Some e →
  progress_le st
    {| files := <[p := {| lines := lines e; reviewed := true |}]> (files st);
       total_lines := total_lines st |}.
Proof.
  intros Hp. split; [done|]. intros q. simpl.
  destruct (decide (q = p)) as [->|Hq].
  - by rewrite lookup_insert_eq, Hp.
  - rewrite lookup_insert_ne by done. by destruct (files st !! q).
Qed.

(** ** One call of [cmd_review] *)

Section ReviewFacts.
Context `{PyStr} (env : Env).

(** Whatever [cmd_review] returns or raises on a state that exists, the
    state files continue the former ones; when it returns [True] the file is
    reviewed. *)
Lemma cmd_review_outcome path mode pr_key st w :
  store w !! pr_key = Some st →
  continues (store w) pr_key (store (cmd_review env path mode pr_key w).2)
  ∧ ((cmd_review env path mode pr_key w).1 = Return true →
     reviewed_in (store (cmd_review env path mode pr_key w).2) pr_key path).
Proof.
  intros Hst.
  destruct (files st !! path) as [e|] eqn:Hp.
  - destruct (reviewed e) eqn:Hr.
    + rewrite (cmd_review_already _ _ _ _ _ _ _ Hst Hp Hr). simpl.
      split; [by eapply continues_refl|done].
    + destruct (stdin w) as [|line rest] eqn:Hin.
      * rewrite (cmd_review_eof _ _ _ _ _ _ _ Hst Hp Hr Hin). simpl.
        split; [by eapply continues_refl|done].
      * rewrite (cmd_review_answer _ _ _ _ _ _ _ _ _ Hst Hp Hr Hin).
        destruct (bool_decide (str_lower (str_strip line) = "y")); simpl.
        -- split.
           ++ split.
              ** eexists st, _. split; [done|]. rewrite lookup_insert_eq.
                 split; [done|]. by apply progress_le_mark.
              ** intros k' Hk'. by rewrite lookup_insert_ne.
           ++ intros _. eexists _, _. rewrite lookup_insert_eq. split; [done|].
              simpl. rewrite lookup_insert_eq. done.
        -- split; [by eapply continues_refl|done].
  - rewrite (cmd_review_unknown _ _ _ _ _ _ Hst Hp). simpl.
    split; [by eapply continues_refl|done].
Qed.

End ReviewFacts.

(** ** Commands that keep a property of the state files *)

Lemma keeps_ret {A} P (a : A) : keeps P (mret a).
Proof. intros w. done. Qed.

Lemma keeps_raise {A} P e : keeps P (raise e : IO A).
Proof. intros w. done. Qed.

Lemma keeps_lift {A} P (o : outcome A) : keeps P (lift o).
Proof. intros w. done. Qed.

Lemma keeps_print P ev : keeps P (print ev).
Proof. intros w. done. Qed.

Lemma keeps_input P ev : keeps P (input ev).
Proof. intros w. unfold input. by destruct (stdin w). Qed.

Lemma keeps_read_file P k : keeps P (read_file k).
Proof. intros w. done. Qed.

Lemma keeps_bind {A B} P (m : IO A) (f : A → IO B) :
  keeps P m → (∀ a, keeps P (f a)) → keeps P (m ≫= f).
Proof.
  intros Hm Hf w HP. rewrite io_bind_eq. specialize (Hm w HP).
  destruct (m w) as [[a|e] w']; simpl in *; [|done].
  by apply Hf.
Qed.

Lemma keeps_for_each {A S} P (body : S → A → IO S) l :
  (∀ s x, keeps P (body s x)) → ∀ s, keeps P (for_each body s l).
Proof.
  intros Hbody. induction l as [|x l IH]; intros s; simpl.
  - apply keeps_ret.
  - apply keeps_bind; [apply Hbody|apply IH].
Qed.

Create HintDb keeps.

Ltac keeps_step :=
  lazymatch goal with
  | |- keeps _ (mret _) => apply keeps_ret
  | |- keeps _ (raise _) => apply keeps_raise
  | |- keeps _ (lift _) => apply keeps_lift
  | |- keeps _ (print _) => apply keeps_print
  | |- keeps _ (input _) => apply keeps_input
  | |- keeps _ (read_file _) => apply keeps_read_file
  | |- keeps _ (mbind _ _) => apply keeps_bind; [|intros ?]
  | |- keeps _ (for_each _ _ _) => apply keeps_for_each; intros ? ?
  | |- keeps _ (if ?b then _ else _) => destruct b
  | |- keeps _ (match ?x with _ => _ end) => destruct x
  | |- keeps _ _ => solve [eauto with keeps]
  end.

Ltac solve_keeps := repeat keeps_step.

Section Keeps.
Context `{PyStr} (env : Env).

(** Where the record of the key exists, [load_state] changes no state
    file. *)
Lemma keeps_load_state P k :
  (∀ s, P s → is_Some (s !! k)) → keeps P (load_state env k).
Proof.
  intros Hex w HP. destruct (Hex _ HP) as [st Hst].
  by rewrite (load_state_found env k st w Hst).
Qed.

Lemma keeps_cmd_status P k :
  (∀ s, P s → is_Some (s !! k)) → keeps P (cmd_status env k).
Proof.
  intros Hex. unfold cmd_status. solve_keeps. by apply keeps_load_state.
Qed.

Lemma continues_is_Some s0 k s : continues s0 k s → is_Some (s !! k).
Proof. intros [(? & st & _ & Hst & _) _]. by exists st. Qed.

Lemma keeps_cmd_review s0 path mode k :
  keeps (continues s0 k) (cmd_review env path mode k).
Proof.
  intros w Hc. destruct (continues_is_Some _ _ _ Hc) as [st Hst].
  destruct (cmd_review_outcome env path mode k st w Hst) as [Hstep _].
  by eapply continues_trans.
Qed.

Lemma keeps_path_at P paths i : keeps P (path_at paths i).
Proof. unfold path_at. solve_keeps. Qed.

Lemma keeps_valid_ids {S} P paths (body : S → string → IO S) s ids :
  (∀ s i, keeps P (body s i)) → keeps P (valid_ids paths body s ids).
Proof. intros Hbody. unfold valid_ids. solve_keeps. Qed.

Lemma keeps_cmds s0 paths k cmd fn ids :
  cmds env paths k cmd = Some fn → keeps (continues s0 k) (fn ids).
Proof.
  pose proof (continues_is_Some s0 k) as Hex.
  pose proof (keeps_load_state (continues s0 k) k Hex) as Hload.
  unfold cmds. intros Hfn.
  repeat (case_bool_decide; [injection Hfn as <-|]); try done;
    unfold print_files, review_files, list_all, list_unreviewed.
  - apply keeps_bind; [|intros ?; apply keeps_ret].
    apply keeps_valid_ids. intros ? ?.
    apply keeps_bind; [apply keeps_path_at|intros ?; apply keeps_print].
  - apply keeps_bind; [|intros ?; apply keeps_ret].
    apply keeps_valid_ids. intros ? ?.
    apply keeps_bind; [apply keeps_path_at|intros ?; apply keeps_print].
  - apply keeps_valid_ids. intros ? ?.
    apply keeps_bind; [apply keeps_path_at|intros ?].
    apply keeps_bind; [apply keeps_cmd_review|intros ?; apply keeps_ret].
  - apply keeps_valid_ids. intros ? ?.
    apply keeps_bind; [apply keeps_path_at|intros ?].
    apply keeps_bind; [apply keeps_cmd_review|intros ?; apply keeps_ret].
  - apply keeps_bind; [|intros ?; apply keeps_ret].
    apply keeps_bind; [done|intros ?].
    apply keeps_for_each. intros ? [? ?]. apply keeps_print.
  - apply keeps_bind; [|intros ?; apply keeps_ret].
    apply keeps_bind; [done|intros ?].
    apply keeps_for_each. intros ? [? ?]. solve_keeps.
Qed.

Lemma keeps_session_loop s0 paths k turns : ∀ approved,
  keeps (continues s0 k) (session_loop env paths k turns approved).
Proof.
  induction turns as [|turns IH]; intros approved; simpl.
  - apply keeps_ret.
  - apply keeps_bind.
    { intros w Hc. unfold input_or_eof.
      pose proof (keeps_input (continues s0 k) PrSessionPrompt w Hc) as Hin.
      destruct (input PrSessionPrompt w) as [[line|[]] w']; done. }
    intros [line|]; [|solve_keeps].
    destruct (bool_decide (str_strip line = "")); [apply keeps_ret|].
    destruct (str_split (str_strip line)) as [|cmd ids]; [apply keeps_raise|].
    apply keeps_bind.
    { destruct (cmds env paths k cmd) eqn:Hfn; [by eapply keeps_cmds|].
      solve_keeps. }
    intros res. apply keeps_bind; [|intros ?; apply IH].
    apply keeps_cmd_status. apply continues_is_Some.
Qed.

Lemma keeps_interactive_session s0 paths k :
  keeps (continues s0 k) (_interactive_session env paths k).
Proof.
  unfold _interactive_session.
  apply keeps_bind; [apply keeps_print|intros ?].
  apply keeps_bind.
  { intros w. apply keeps_session_loop. }
  intros approved. solve_keeps.
Qed.

End Keeps.

(** ** [load_state] without a state file *)

Section LoadFacts.
Context `{PyStr} (env : Env).

Lemma yn_store prompt default w : store (yn prompt default w).2 = store w.
Proof.
  unfold yn. rewrite io_bind_eq. unfold input.
  destruct (stdin w); [done|]. simpl.
  by destruct (bool_decide (str_lower (str_strip s) = "")).
Qed.

(** What [overview_and_save] does to the state files and the input: the
    input is not read; it either raises with the state files as they were,
    or the pull request has no file and the empty state is saved under its
    key. *)
Lemma overview_and_save_effect config interactive w :
  stdin (overview_and_save env config interactive w).2 = stdin w
  ∧ ((∃ e, (overview_and_save env config interactive w).1 = Raise e
           ∧ (e = NameError "reviewed" ∨ e = SystemExit 1)
           ∧ store (overview_and_save env config interactive w).2 = store w)
     ∨ ∃ k data,
         pr_number env = Some k ∧ pr_view env = Some data ∧ pr_files data = []
         ∧ (overview_and_save env config interactive w).1 = Return ([], k)
         ∧ store (overview_and_save env config interactive w).2 =
             <[k := empty_state]> (store w)).
Proof.
  destruct (pr_number env) as [k|] eqn:Hk.
  - destruct (pr_view env) as [data|] eqn:Hd.
    + destruct (pr_files data) as [|f fl] eqn:Hfl.
      * rewrite (overview_and_save_empty env config interactive k data w Hk Hd Hfl).
        split; [done|]. right. by exists k, data.
      * rewrite (overview_and_save_nonempty env config interactive k data f fl w Hk Hd Hfl).
        split; [done|]. left. eexists. split; [done|]. split; [by left|done].
    + unfold overview_and_save, current_pr_key, gh_view. rewrite Hk, Hd.
      split; [done|]. left. eexists. split; [done|]. split; [by right|done].
  - unfold overview_and_save, current_pr_key. rewrite Hk. split; [done|].
    left. eexists. split; [done|]. split; [by right|done].
Qed.

(** One step of [load_state]. *)
Lemma load_state_rec_step depth pr_key w :
  load_state_rec env depth pr_key w =
    match store w !! pr_key with
    | Some st => (Return (Some st), w)
    | None =>
        match yn "No state file. Run overview?" false w with
        | (Return true, w1) =>
            match overview_and_save env (user_config env) false w1 with
            | (Return _, w2) =>
                match depth with
                | O => (Raise RecursionError, w2)
                | S depth' => load_state_rec env depth' pr_key w2
                end
            | (Raise e, w2) => (Raise e, w2)
            end
        | (Return false, w1) => (Return None, w1)
        | (Raise e, w1) => (Raise e, w1)
        end
    end.
Proof.
  destruct depth; simpl; rewrite io_bind_eq; unfold read_file;
    (destruct (store w !! pr_key); [done|]);
    rewrite io_bind_eq;
    (destruct (yn "No state file. Run overview?" false w) as [[[|]|e] w1]; [|done|done]);
    unfold load_config; rewrite io_bind_eq; unfold mret at 1, IO_ret at 1;
    rewrite io_bind_eq;
    by destruct (overview_and_save env (user_config env) false w1) as [[?|?] w2].
Qed.

(** [load_state] returns what the state file of the key holds when it
    returns, and [None] only when there is no such file. *)
Lemma load_state_rec_result depth : ∀ pr_key w,
  match load_state_rec env depth pr_key w with
  | (Return (Some st), w') => store w' !! pr_key = Some st
  | (Return None, w') => store w' !! pr_key = None
  | (Raise _, _) => True
  end.
Proof.
  induction depth as [|depth IH]; intros pr_key w;
    rewrite load_state_rec_step;
    (destruct (store w !! pr_key) as [st|] eqn:Hst; [done|]);
    pose proof (yn_store "No state file. Run overview?" false w) as Hyn;
    (destruct (yn "No state file. Run overview?" false w) as [[[|]|e] w1];
       simpl in *; [|by rewrite Hyn|done]);
    (destruct (overview_and_save env (user_config env) false w1) as [[?|?] w2];
       [|done]).
  - done.
  - apply IH.
Qed.

(** The exceptions of [load_state]: the end of the input at the question,
    the two ways in which the overview fails, and the recursion limit. *)
Lemma load_state_rec_raises depth : ∀ pr_key w e w',
  load_state_rec env depth pr_key w = (Raise e, w') →
  e = EOFError ∨ e = NameError "reviewed" ∨ e = SystemExit 1 ∨ e = RecursionError.
Proof.
  induction depth as [|depth IH]; intros pr_key w e w';
    rewrite load_state_rec_step;
    (destruct (store w !! pr_key) as [st|]; [done|]);
    (destruct (stdin w) as [|line rest] eqn:Hin;
       [rewrite (yn_eof _ _ _ Hin); intros [= <- <-]; by left|]);
    rewrite (yn_line _ _ line rest w Hin);
    (destruct (if bool_decide (str_lower (str_strip line) = "") then false
               else bool_decide (str_lower (str_strip line) = "y")); [|done]);
    match goal with |- context [overview_and_save env ?c false ?w1] =>
      destruct (overview_and_save_effect c false w1)
        as [_ [(e1 & He1 & Hcase & _)|(k & data & _ & _ & _ & Hr & _)]];
      destruct (overview_and_save env c false w1) as [[?|?] w2]; simpl in *;
        try done
    end.
  - intros [= <- <-]. injection He1 as ->. destruct Hcase; auto.
  - intros [= <- <-]. auto.
  - intros [= <- <-]. injection He1 as ->. destruct Hcase; auto.
  - apply IH.
Qed.

(** Declining the offer of an overview. *)
Lemma load_state_declined pr_key line rest w :
  store w !! pr_key = None →
  stdin w = line :: rest →
  str_lower (str_strip line) ≠ "y" →
  load_state env pr_key w =
    (Return None,
     {| store := store w; stdin := rest;
        stdout := stdout w ++ [PrPrompt "No state file. Run overview?" false] |}).
Proof.
  intros Hst Hin Hno. unfold load_state. rewrite load_state_rec_step, Hst.
  rewrite (yn_line _ _ line rest w Hin).
  rewrite (bool_decide_eq_false_2 _ Hno).
  by destruct (bool_decide (str_lower (str_strip line) = "")).
Qed.

End LoadFacts.

(** ** Reviewed and unreviewed lines *)

Lemma unreviewed_lines_insert (fs : gmap string FileEntry) p e :
  fs !! p = None →
  unreviewed_lines (<[p := e]> fs) =
    (if reviewed e then 0 else lines e) + unreviewed_lines fs.
Proof.
  intros Hp. unfold unreviewed_lines.
  rewrite map_fold_insert_L; [by destruct (reviewed e) | | done].
  intros ? ? z1 z2 ? _ _ _. destruct (reviewed z1), (reviewed z2); lia.
Qed.

(** Every line is either reviewed or not. *)
Lemma sum_lines_split (fs : gmap string FileEntry) :
  sum_lines fs = reviewed_lines fs + unreviewed_lines fs.
Proof.
  induction fs as [|p e fs Hp IH] using map_ind.
  - unfold sum_lines, reviewed_lines, unreviewed_lines.
    by rewrite !map_fold_empty.
  - rewrite sum_lines_insert, reviewed_lines_insert, unreviewed_lines_insert by done.
    destruct (reviewed e); lia.
Qed.

Lemma lines_nonneg_sums (fs : gmap string FileEntry) :
  (∀ p e, fs !! p = Some e → 0 ≤ lines e) →
  0 ≤ reviewed_lines fs ∧ 0 ≤ unreviewed_lines fs.
Proof.
  induction fs as [|p e fs Hp IH] using map_ind; intros Hall.
  - unfold reviewed_lines, unreviewed_lines. by rewrite !map_fold_empty.
  - assert (0 ≤ lines e) by (apply (Hall p); by rewrite lookup_insert_eq).
    destruct IH as [IH1 IH2].
    { intros q e' Hq. apply (Hall q). rewrite lookup_insert_ne; [done|congruence]. }
    rewrite reviewed_lines_insert, unreviewed_lines_insert by done.
    destruct (reviewed e); lia.
Qed.

(** With every entry reviewed nothing is left. *)
Lemma all_reviewed_sums (fs : gmap string FileEntry) :
  (∀ p e, fs !! p = Some e → reviewed e = true) →
  unreviewed_lines fs = 0 ∧ unreviewed_count fs = 0.
Proof.
  induction fs as [|p e fs Hp IH] using map_ind; intros Hall.
  - unfold unreviewed_lines, unreviewed_count. by rewrite !map_fold_empty.
  - assert (reviewed e = true) as He by (apply (Hall p); by rewrite lookup_insert_eq).
    destruct IH as [IH1 IH2].
    { intros q e' Hq. apply (Hall q). rewrite lookup_insert_ne; [done|congruence]. }
    rewrite unreviewed_lines_insert, unreviewed_count_insert by done.
    rewrite He. lia.
Qed.

(** What marking an unreviewed entry does to the sums. *)
Lemma mark_reviewed_sums (fs : gmap string FileEntry) p e :
  fs !! p = Some e → reviewed e = false →
  let fs' := <[p := {| lines := lines e; reviewed := true |}]> fs in
  reviewed_lines fs' = reviewed_lines fs + lines e
  ∧ unreviewed_lines fs' = unreviewed_lines fs - lines e
  ∧ unreviewed_count fs' = unreviewed_count fs - 1
  ∧ sum_lines fs' = sum_lines fs.
Proof.
  intros Hp Hr. simpl.
  rewrite <- (insert_delete_id fs p e Hp) at 2 4 6 8.
  rewrite <- (insert_delete_eq fs).
  rewrite !reviewed_lines_insert, !unreviewed_lines_insert,
    !unreviewed_count_insert, !sum_lines_insert by apply lookup_delete_eq.
  rewrite Hr. simpl. lia.
Qed.

(** ** The percentage at the ends of the range *)

Lemma percent_reviewed_zero t : t ≠ 0 → percent_reviewed 0 t = Return 0.
Proof.
  intros Ht. unfold percent_reviewed, py_truediv. rewrite !decide_False by done.
  by destruct t.
Qed.

(** A quotient of equal integers is the double 1, and 100 times it is 100. *)
Lemma percent_reviewed_all t : 0 < t < 2 ^ 1000 → percent_reviewed t t = Return 100.
Proof.
  intros Ht. unfold percent_reviewed, py_truediv. rewrite !decide_False by lia.
  destruct t as [|t|t]; try lia. cbn [float_of_int].
  destruct (SFdiv_spec t t) as (m & e & -> & Hm & He & Herr1); [lia|lia|].
  assert (Z.pos m = 2 ^ (- e)) as Hme.
  { assert (Z.pos t * 2 ^ (- e) - Z.pos m * Z.pos t = Z.pos t * (2 ^ (- e) - Z.pos m))
      as Heq by ring.
    rewrite Heq, Z.abs_mul in Herr1.
    assert (Z.abs (2 ^ (- e) - Z.pos m) = 0 ∨ 1 ≤ Z.abs (2 ^ (- e) - Z.pos m)) as [?|?] by lia;
      [lia|]. nia. }
  assert (- e = 52) as He52.
  { rewrite Hme in Hm. destruct Hm as [Hlo Hhi].
    apply Z.pow_le_mono_r_iff in Hlo; [|lia|lia].
    apply Z.pow_lt_mono_r_iff in Hhi; [|lia|lia]. lia. }
  destruct (mul_hundred_spec m e Hm He) as (m2 & k & -> & Hk & Herr2).
  unfold py_int_of_float. rewrite decide_False by lia. cbn [cond_Zopp].
  f_equal. rewrite Hme, He52 in Herr2.
  replace (- (e - 46 + k)) with (98 - k) by lia.
  assert (k = 52 ∨ k = 53 ∨ k = 54) as [-> | [-> | ->]] by lia.
  - change (98 - 52) with 46. change (2 ^ 46) with 70368744177664 in *.
    change (2 ^ 52) with 4503599627370496 in *.
    assert (Z.pos m2 = 7036874417766400) as -> by lia. reflexivity.
  - change (98 - 53) with 45. change (2 ^ 45) with 35184372088832 in *.
    change (2 ^ 46) with 70368744177664 in *.
    change (2 ^ 52) with 4503599627370496 in *.
    change (2 ^ 53) with 9007199254740992 in *.
    assert (Z.pos m2 = 3518437208883200) as -> by lia. reflexivity.
  - change (98 - 54) with 44. change (2 ^ 44) with 17592186044416 in *.
    change (2 ^ 46) with 70368744177664 in *.
    change (2 ^ 52) with 4503599627370496 in *.
    change (2 ^ 54) with 18014398509481984 in *.
    assert (Z.pos m2 = 1759218604441600) as -> by lia. reflexivity.
Qed.

(** For [0 ≤ reviewed ≤ total] the percentage is between 0 and 100. *)
Lemma percent_reviewed_range r t :
  0 ≤ r ≤ t → 0 < t ≤ 2 ^ 43 →
  ∃ p, percent_reviewed r t = Return p ∧ 0 ≤ p ≤ 100.
Proof.
  intros Hr Ht.
  destruct (percent_reviewed_bounds r t Hr Ht) as (p & Hp & [Hlo Hhi] & Hex).
  exists p. split; [done|].
  assert (100 * r / t ≤ 100) by (apply Z.div_le_upper_bound; lia).
  split; [|lia].
  destruct (Z.eq_dec r 0) as [->|Hr0].
  - rewrite percent_reviewed_zero in Hp by lia. by injection Hp as <-.
  - destruct (Z.eq_dec ((100 * r) `mod` t) 0) as [Hmod|Hmod].
    + assert (1 ≤ 100 * r / t); [|lia].
      pose proof (Z.div_mod (100 * r) t ltac:(lia)) as Hdm.
      rewrite Hmod in Hdm.
      assert (0 ≤ 100 * r / t) by (apply Z.div_pos; lia).
      assert (100 * r / t ≠ 0) by (intros Hz; rewrite Hz in Hdm; lia). lia.
    + rewrite (Hex Hmod). apply Z.div_pos; lia.
Qed.

(** ** Loops *)

(** An invariant of the body of a loop holds after the loop, when the loop
    returns. *)
Lemma for_each_inv {A S} (I : S → World → Prop) (body : S → A → IO S) l :
  (∀ s a w s' w', a ∈ l → I s w → body s a w = (Return s', w') → I s' w') →
  ∀ s w s' w', I s w → for_each body s l w = (Return s', w') → I s' w'.
Proof.
  induction l as [|a l IH]; intros Hbody s w s' w' HI Hrun; simpl in Hrun.
  - injection Hrun as <- <-. done.
  - rewrite io_bind_eq in Hrun.
    destruct (body s a w) as [[s1|e] w1] eqn:Hb; [|done].
    eapply IH; [|by eapply (Hbody s a w s1 w1); [left| |]|done].
    intros ? ? ? ? ? ?. apply Hbody. by right.
Qed.



(** ** [cmd_reset] and the commands without a state file *)

Lemma cmd_reset_eq pr_key w :
  cmd_reset pr_key w =
    (Return (),
     {| store := delete pr_key (store w); stdin := stdin w;
        stdout := stdout w ++ [match store w !! pr_key with
                               | Some _ => PrResetDone
                               | None => PrNoReset
                               end] |}).
Proof.
  unfold cmd_reset. rewrite io_bind_eq. unfold read_file.
  destruct (store w !! pr_key) eqn:Hst; [done|].
  unfold print, emit. simpl. by rewrite delete_id.
Qed.

Lemma cmd_status_declined `{PyStr} env pr_key line rest w :
  store w !! pr_key = None →
  stdin w = line :: rest →
  str_lower (str_strip line) ≠ "y" →
  cmd_status env pr_key w =
    (Return (),
     {| store := store w; stdin := rest;
        stdout := stdout w ++ [PrPrompt "No state file. Run overview?" false;
                               PrNoState] |}).
Proof.
  intros Hst Hin Hno. unfold cmd_status.
  rewrite io_bind_eq, (load_state_declined env pr_key line rest w Hst Hin Hno).
  unfold print, emit. simpl. by rewrite <- app_assoc.
Qed.

(** ** Selecting by number *)

(** [paths[int(i) - 1]], when it returns, returns an element of [paths] and
    changes nothing. *)
Lemma path_at_elem `{PyStr} paths i w p w' :
  path_at paths i w = (Return p, w') → p ∈ paths ∧ w' = w.
Proof.
  unfold path_at. destruct (str_int i) as [n|]; [|done]. cbv zeta.
  destruct (decide (0 ≤ _ < _)); [|done].
  destruct (paths !! _) as [q|] eqn:Hq; [|done].
  intros [= <- <-]. split; [|done]. by eapply list_elem_of_lookup_2.
Qed.

Lemma printed_nil w : printed w [] = w.
Proof. destruct w. unfold printed. simpl. by rewrite app_nil_r. Qed.

Lemma printed_emit w ev evs : printed (emit ev w) evs = printed w (ev :: evs).
Proof. unfold printed, emit. simpl. by rewrite <- app_assoc. Qed.

(** ** The listings *)

Lemma list_lines_all fs (l : list (Z * string)) : ∀ w,
  for_each (λ _ '(idx, path),
              let lines := default 0 (lines <$> fs !! path) in
              print (PrListLine idx path lines)) () l w =
    (Return (), printed w (list_line fs <$> l)).
Proof.
  induction l as [|[idx p] l IH]; intros w; simpl.
  - by rewrite printed_nil.
  - rewrite io_bind_eq. unfold print at 1. rewrite IH, printed_emit. done.
Qed.

Lemma list_lines_unreviewed fs (l : list (Z * string)) : ∀ w,
  for_each (λ _ '(idx, path),
              if default false (reviewed <$> fs !! path) then mret ()
              else
                let lines := default 0 (lines <$> fs !! path) in
                print (PrListLine idx path lines)) () l w =
    (Return (), printed w (List.filter (unreviewed_line fs) (list_line fs <$> l))).
Proof.
  induction l as [|[idx p] l IH]; intros w; simpl.
  - by rewrite printed_nil.
  - rewrite io_bind_eq.
    destruct (default false (reviewed <$> fs !! p)); simpl.
    + unfold mret at 1, IO_ret at 1. apply IH.
    + unfold print at 1. rewrite IH, printed_emit. done.
Qed.

Lemma enumerate_lookup {A} (l : list A) : ∀ start n x,
  l !! n = Some x → enumerate start l !! n = Some (start + Z.of_nat n, x).
Proof.
  induction l as [|y l IH]; intros start n x Hn; [done|].
  destruct n as [|n]; simpl in *.
  - injection Hn as ->. by rewrite Z.add_0_r.
  - rewrite (IH (start + 1) n x Hn). do 2 f_equal. lia.
Qed.

(** ** Selectors under any interpreter of strings *)

(** [print_files] ends normally or in the [ValueError] of [int]; no index is
    ever out of range, and only the console changes. *)
Lemma print_files_outcome `{PyStr} paths ids : ∀ w,
  ((print_files paths ids w).1 = Return ()
   ∨ (print_files paths ids w).1 = Raise ValueError)
  ∧ store (print_files paths ids w).2 = store w
  ∧ stdin (print_files paths ids w).2 = stdin w.
Proof.
  unfold print_files, valid_ids.
  induction ids as [|i ids IH]; intros w; simpl; [by auto|].
  rewrite io_bind_eq.
  destruct (negb (str_isdigit i)); simpl; [apply (IH (emit _ w))|].
  unfold path_at.
  destruct (str_int i) as [n|] eqn:Hint; simpl; [|by auto].
  destruct (negb (bool_decide _)) eqn:Hr; simpl; [apply (IH (emit _ w))|].
  apply negb_false_iff, bool_decide_eq_true in Hr.
  rewrite io_bind_eq. cbv zeta.
  rewrite (decide_False (P := n - 1 < 0)) by lia.
  rewrite decide_True by lia.
  destruct (lookup_lt_is_Some_2 paths (Z.to_nat (n - 1))) as [p ->]; [lia|].
  apply (IH (emit _ w)).
Qed.

(** ** What a session approves *)

(** When [review_files] returns, the state files continue the former ones,
    and the paths it returns are paths of the session that are reviewed. *)
Lemma review_files_approved `{PyStr} env paths pr_key ids mode st w approved w' :
  store w !! pr_key = Some st →
  review_files env paths pr_key ids mode w = (Return approved, w') →
  continues (store w) pr_key (store w')
  ∧ ∀ p, p ∈ approved → p ∈ paths ∧ reviewed_in (store w') pr_key p.
Proof.
  intros Hst Hrf. unfold review_files, valid_ids in Hrf.
  set (I := λ (s : list string) (w1 : World),
         continues (store w) pr_key (store w1)
         ∧ ∀ p, p ∈ s → p ∈ paths ∧ reviewed_in (store w1) pr_key p).
  change (I approved w').
  eapply (for_each_inv I); [|split; [by eapply continues_refl|by intros ? ?%elem_of_nil]
                            |exact Hrf].
  clear Hrf. intros s i w1 s' w1' _ [Hc Hall] Hb.
  destruct (negb (str_isdigit i)); [by injection Hb as <- <-|].
  destruct (str_int i) as [n|]; [|done].
  destruct (negb (bool_decide _)); [by injection Hb as <- <-|].
  rewrite io_bind_eq in Hb.
  destruct (path_at paths i w1) as [[p|e] w2] eqn:Hat; [|done].
  apply path_at_elem in Hat as [Hp ->].
  rewrite io_bind_eq in Hb.
  destruct (continues_is_Some _ _ _ Hc) as [st1 Hst1].
  destruct (cmd_review_outcome env p mode pr_key st1 w1 Hst1) as [Hstep Htrue].
  destruct (cmd_review env p mode pr_key w1) as [[ok|e] w3]; [|done].
  injection Hb as <- <-. simpl in *. split; [by eapply continues_trans|].
  intros q Hq.
  assert (q ∈ s ∨ (ok = true ∧ q = p)) as [Hold|[-> ->]].
  { destruct ok; [|by left].
    apply elem_of_app in Hq as [?| ->%list_elem_of_singleton]; auto. }
  - destruct (Hall q Hold) as [? ?]. split; [done|].
    by eapply reviewed_in_continues.
  - split; [done|]. by apply Htrue.
Qed.

(** What a command of the table returns: paths of the session that are
    reviewed when it returns. *)
Lemma cmds_approved `{PyStr} env paths pr_key cmd fn ids st w res w' :
  cmds env paths pr_key cmd = Some fn →
  store w !! pr_key = Some st →
  fn ids w = (Return res, w') →
  ∀ p, p ∈ res → p ∈ paths ∧ reviewed_in (store w') pr_key p.
Proof.
  unfold cmds. intros Hfn Hst Hrun.
  repeat (case_bool_decide; [injection Hfn as <-|]); try done;
    try (rewrite io_bind_eq in Hrun;
         match type of Hrun with
         | (let (_, _) := ?m in _) = _ => destruct m as [[?|?] ?]; [|done]
         end;
         injection Hrun as <- <-; by intros ? ?%elem_of_nil).
  - by destruct (review_files_approved env paths pr_key ids "skim" st w res w' Hst Hrun).
  - by destruct (review_files_approved env paths pr_key ids "deep" st w res w' Hst Hrun).
Qed.

(** The list of the approved paths that the loop of the session builds. *)
Lemma session_loop_approved `{PyStr} env paths pr_key turns : ∀ approved w approved' w',
  is_Some (store w !! pr_key) →
  (∀ p, p ∈ approved → p ∈ paths ∧ reviewed_in (store w) pr_key p) →
  session_loop env paths pr_key turns approved w = (Return approved', w') →
  ∀ p, p ∈ approved' → p ∈ paths ∧ reviewed_in (store w') pr_key p.
Proof.
  induction turns as [|turns IH]; intros approved w approved' w' [st Hst] Hall Hrun;
    simpl in Hrun.
  - by injection Hrun as <- <-.
  - rewrite io_bind_eq in Hrun. unfold input_or_eof, input in Hrun.
    destruct (stdin w) as [|line rest] eqn:Hin; simpl in Hrun.
    { by injection Hrun as <- <-. }
    destruct (bool_decide (str_strip line = "")); [by injection Hrun as <- <-|].
    destruct (str_split (str_strip line)) as [|cmd ids]; [done|].
    rewrite io_bind_eq in Hrun.
    set (w1 := {| store := store w; stdin := rest;
                  stdout := stdout w ++ [PrSessionPrompt] |}) in *.
    assert (continues (store w) pr_key (store w1)) as Hc1 by (by eapply continues_refl).
    assert (∃ res w2,
              match cmds env paths pr_key cmd with
              | Some fn => fn ids
              | None => print PrUnknownCommand ≫= λ _, mret []
              end w1 = (Return res, w2)
              ∧ continues (store w) pr_key (store w2)
              ∧ ∀ p, p ∈ res → p ∈ paths ∧ reviewed_in (store w2) pr_key p)
      as (res & w2 & Hres & Hc2 & Hnew).
    { destruct (cmds env paths pr_key cmd) as [fn|] eqn:Hfn.
      - destruct (fn ids w1) as [[res|e] w2] eqn:Hfnrun; [|done].
        exists res, w2. split; [done|]. split.
        + pose proof (keeps_cmds env (store w) paths pr_key cmd fn ids Hfn w1 Hc1) as Hk.
          by rewrite Hfnrun in Hk.
        + by eapply (cmds_approved env paths pr_key cmd fn ids st w1).
      - eexists [], _. split; [done|]. split; [done|]. by intros ? ?%elem_of_nil. }
    rewrite Hres in Hrun. rewrite io_bind_eq in Hrun.
    pose proof (keeps_cmd_status env (continues (store w) pr_key) pr_key
                  (continues_is_Some _ _) w2 Hc2) as Hc3.
    assert (continues (store w2) pr_key (store (cmd_status env pr_key w2).2)) as Hc4.
    { destruct Hc2 as [(a & b & Ha & Hb & _) _].
      apply (keeps_cmd_status env (continues (store w2) pr_key) pr_key
               (continues_is_Some _ _) w2 (continues_refl _ _ _ Hb)). }
    destruct (cmd_status env pr_key w2) as [[[]|e] w3]; [|done].
    simpl in Hc3, Hc4.
    eapply (IH _ w3); [by eapply continues_is_Some| |exact Hrun].
    intros p [Hp|Hp]%elem_of_app.
    + destruct (Hall p Hp) as [? Hrev]. split; [done|].
      exact (reviewed_in_continues _ _ _ _ Hc3 Hrev).
    + destruct (Hnew p Hp) as [? Hrev]. split; [done|].
      exact (reviewed_in_continues _ _ _ _ Hc4 Hrev).
Qed.

Lemma for_each_print {A} (g : A → Event) l : ∀ w,
  for_each (λ _ x, print (g x)) () l w = (Return (), printed w (g <$> l)).
Proof.
  induction l as [|x l IH]; intros w; simpl.
  - by rewrite printed_nil.
  - rewrite io_bind_eq. unfold print at 1. rewrite IH, printed_emit. done.
Qed.

(** [cmd_review] returns [True] only for a path that was not reviewed. *)
Lemma cmd_review_true_fresh `{PyStr} env path mode pr_key st w :
  store w !! pr_key = Some st →
  (cmd_review env path mode pr_key w).1 = Return true →
  ¬ reviewed_in (store w) pr_key path.
Proof.
  intros Hst Htrue (st' & e' & Hst' & He' & Hr').
  rewrite Hst in Hst'. injection Hst' as <-.
  by rewrite (cmd_review_already _ _ _ _ _ _ _ Hst He' Hr') in Htrue.
Qed.

(** The paths that [review_files] returns are distinct, and none of them
    was reviewed before the call. *)
Lemma review_files_fresh `{PyStr} env paths pr_key ids mode st w approved w' :
  store w !! pr_key = Some st →
  review_files env paths pr_key ids mode w = (Return approved, w') →
  NoDup approved ∧ ∀ p, p ∈ approved → ¬ reviewed_in (store w) pr_key p.
Proof.
  intros Hst Hrf. unfold review_files, valid_ids in Hrf.
  set (I := λ (s : list string) (w1 : World),
         continues (store w) pr_key (store w1)
         ∧ NoDup s
         ∧ ∀ p, p ∈ s → reviewed_in (store w1) pr_key p
                        ∧ ¬ reviewed_in (store w) pr_key p).
  assert (I approved w') as (_ & Hnd & Hall).
  { eapply (for_each_inv I); [| |exact Hrf].
    - clear Hrf. intros s i w1 s' w1' _ (Hc & Hnd & Hall) Hb.
      destruct (negb (str_isdigit i)); [by injection Hb as <- <-|].
      destruct (str_int i) as [n|]; [|done].
      destruct (negb (bool_decide _)); [by injection Hb as <- <-|].
      rewrite io_bind_eq in Hb.
      destruct (path_at paths i w1) as [[p|e] w2] eqn:Hat; [|done].
      apply path_at_elem in Hat as [Hp ->].
      rewrite io_bind_eq in Hb.
      destruct (continues_is_Some _ _ _ Hc) as [st1 Hst1].
      destruct (cmd_review_outcome env p mode pr_key st1 w1 Hst1) as [Hstep Htrue].
      pose proof (cmd_review_true_fresh env p mode pr_key st1 w1 Hst1) as Hfresh.
      destruct (cmd_review env p mode pr_key w1) as [[ok|e] w3]; [|done].
      injection Hb as <- <-. simpl in *.
      split; [by eapply continues_trans|].
      destruct ok.
      + specialize (Hfresh eq_refl). split.
        * apply NoDup_app. split; [done|]. split; [|apply NoDup_singleton].
          intros q Hq ->%list_elem_of_singleton. by destruct (Hall p Hq).
        * intros q [Hq| ->%list_elem_of_singleton]%elem_of_app.
          -- destruct (Hall q Hq). split; [|done].
             by eapply reviewed_in_continues.
          -- split; [by apply Htrue|]. intros Hrev. apply Hfresh.
             by eapply reviewed_in_continues.
      + split; [done|]. intros q Hq. destruct (Hall q Hq). split; [|done].
        by eapply reviewed_in_continues.
    - split; [by eapply continues_refl|]. split; [apply NoDup_nil_2|].
      by intros ? ?%elem_of_nil. }
  split; [done|]. intros p Hp. by destruct (Hall p Hp).
Qed.

(** ** What [cmd_overview] saves *)


(** ** The sum of the [lines] fields while a review goes on *)




(** ** The files reviewed between two moments *)

Lemma reviewed_in_dec s k p : reviewed_in s k p ∨ ¬ reviewed_in s k p.
Proof.
  destruct (s !! k) as [st|] eqn:Hk;
    [|right; intros (st' & e' & Hk' & _); congruence].
  destruct (files st !! p) as [e|] eqn:Hp.
  - destruct (reviewed e) eqn:Hr; [left; by exists st, e|].
    right. intros (st' & e' & Hk' & Hp' & Hr'). congruence.
  - right. intros (st' & e' & Hk' & Hp' & Hr'). congruence.
Qed.

Lemma newly_reviewed_refl s k : newly_reviewed s s k [].
Proof.
  split; [apply NoDup_nil_2|]. intros p. split; [by intros ?%elem_of_nil|].
  by intros [? ?].
Qed.

Lemma newly_reviewed_app s0 s1 s2 k l1 l2 :
  continues s0 k s1 → continues s1 k s2 →
  newly_reviewed s0 s1 k l1 → newly_reviewed s1 s2 k l2 →
  newly_reviewed s0 s2 k (l1 ++ l2).
Proof.
  intros H01 H12 [Hnd1 H1] [Hnd2 H2]. split.
  - apply NoDup_app. split; [done|]. split; [|done].
    intros p Hp1 Hp2. apply H1 in Hp1 as [? _]. apply H2 in Hp2 as [_ ?]. done.
  - intros p. rewrite elem_of_app, H1, H2. split.
    + intros [[Hr Hn]|[Hr Hn]].
      * split; [|done]. exact (reviewed_in_continues _ _ _ _ H12 Hr).
      * split; [done|]. intros Hr0. apply Hn.
        exact (reviewed_in_continues _ _ _ _ H01 Hr0).
    + intros [Hr Hn]. destruct (reviewed_in_dec s1 k p); auto.
Qed.

(** What one call of [cmd_review] adds to the reviewed files. *)
Lemma cmd_review_newly `{PyStr} env path mode pr_key st w :
  store w !! pr_key = Some st →
  ∀ ok, (cmd_review env path mode pr_key w).1 = Return ok →
    newly_reviewed (store w) (store (cmd_review env path mode pr_key w).2) pr_key
      (if ok then [path] else []).
Proof.
  intros Hst ok.
  assert (∀ w', store w' = store w → newly_reviewed (store w) (store w') pr_key [])
    as Hsame by (intros w' ->; apply newly_reviewed_refl).
  destruct (files st !! path) as [e|] eqn:Hp.
  - destruct (reviewed e) eqn:Hr.
    + rewrite (cmd_review_already _ _ _ _ _ _ _ Hst Hp Hr).
      intros [= <-]. by apply Hsame.
    + destruct (stdin w) as [|line rest] eqn:Hin.
      * by rewrite (cmd_review_eof _ _ _ _ _ _ _ Hst Hp Hr Hin).
      * rewrite (cmd_review_answer _ _ _ _ _ _ _ _ _ Hst Hp Hr Hin).
        destruct (bool_decide (str_lower (str_strip line) = "y"));
          intros [= <-]; [|by apply Hsame].
        cbn [snd store]. split; [apply NoDup_singleton|].
        intros q. rewrite list_elem_of_singleton. split.
        -- intros ->. split.
           ++ eexists _, _. rewrite lookup_insert_eq. split; [done|]. simpl.
              rewrite lookup_insert_eq. done.
           ++ intros (st' & e' & Hst' & He' & Hr'). congruence.
        -- intros [(st' & e' & Hst' & He' & Hr') Hn].
           rewrite lookup_insert_eq in Hst'. injection Hst' as <-. simpl in He'.
           destruct (decide (q = path)) as [->|Hq]; [done|].
           rewrite lookup_insert_ne in He' by done.
           exfalso. apply Hn. by exists st, e'.
  - rewrite (cmd_review_unknown _ _ _ _ _ _ Hst Hp). intros [= <-]. by apply Hsame.
Qed.

(** The list that [review_files] returns: the paths whose review the call
    completed, each once. *)
Lemma review_files_newly `{PyStr} env paths pr_key ids mode st w approved w' :
  store w !! pr_key = Some st →
  review_files env paths pr_key ids mode w = (Return approved, w') →
  continues (store w) pr_key (store w')
  ∧ newly_reviewed (store w) (store w') pr_key approved.
Proof.
  intros Hst Hrf. unfold review_files, valid_ids in Hrf.
  set (I := λ (s : list string) (w1 : World),
         continues (store w) pr_key (store w1)
         ∧ newly_reviewed (store w) (store w1) pr_key s).
  change (I approved w').
  eapply (for_each_inv I);
    [|split; [by eapply continues_refl|apply newly_reviewed_refl]|exact Hrf].
  clear Hrf. intros s i w1 s' w1' _ [Hc Hnew] Hb.
  destruct (negb (str_isdigit i)); [by injection Hb as <- <-|].
  destruct (str_int i) as [n|]; [|done].
  destruct (negb (bool_decide _)); [by injection Hb as <- <-|].
  rewrite io_bind_eq in Hb.
  destruct (path_at paths i w1) as [[p|e] w2] eqn:Hat; [|done].
  apply path_at_elem in Hat as [Hp ->].
  rewrite io_bind_eq in Hb.
  destruct (continues_is_Some _ _ _ Hc) as [st1 Hst1].
  destruct (cmd_review_outcome env p mode pr_key st1 w1 Hst1) as [Hstep _].
  pose proof (cmd_review_newly env p mode pr_key st1 w1 Hst1) as Hadd.
  destruct (cmd_review env p mode pr_key w1) as [[ok|e] w3]; [|done].
  injection Hb as <- <-. simpl in *. specialize (Hadd ok eq_refl).
  split; [by eapply continues_trans|].
  pose proof (newly_reviewed_app _ _ _ _ _ _ Hc Hstep Hnew Hadd) as Happ.
  destruct ok; [done|]. by rewrite app_nil_r in Happ.
Qed.

(** The commands of the table other than [rs] and [rd] return nothing and
    leave the state files as they are. *)
Lemma keeps_print_files `{PyStr} P paths ids : keeps P (print_files paths ids).
Proof.
  unfold print_files. apply keeps_valid_ids. intros ? ?.
  apply keeps_bind; [apply keeps_path_at|intros ?; apply keeps_print].
Qed.

Lemma keeps_list_all `{PyStr} env P paths k :
  (∀ s, P s → is_Some (s !! k)) → keeps P (list_all env paths k).
Proof.
  intros Hex. unfold list_all.
  apply keeps_bind; [by apply keeps_load_state|intros ?].
  apply keeps_for_each. intros ? [? ?]. apply keeps_print.
Qed.

Lemma keeps_list_unreviewed `{PyStr} env P paths k :
  (∀ s, P s → is_Some (s !! k)) → keeps P (list_unreviewed env paths k).
Proof.
  intros Hex. unfold list_unreviewed.
  apply keeps_bind; [by apply keeps_load_state|intros ?].
  apply keeps_for_each. intros ? [? ?].
  destruct (default false _); [apply keeps_ret|apply keeps_print].
Qed.

(** What a command of the table returns: the paths whose review it
    completed. *)
Lemma cmds_newly `{PyStr} env paths pr_key cmd fn ids st w res w' :
  cmds env paths pr_key cmd = Some fn →
  store w !! pr_key = Some st →
  fn ids w = (Return res, w') →
  continues (store w) pr_key (store w')
  ∧ newly_reviewed (store w) (store w') pr_key res.
Proof.
  unfold cmds. intros Hfn Hst Hrun.
  assert (∀ (m : IO ()), keeps (λ s, s = store w) m →
            (m ≫= λ _, mret []) w = (Return res, w') →
            continues (store w) pr_key (store w')
            ∧ newly_reviewed (store w) (store w') pr_key res) as Hquiet.
  { intros m Hm Hmr. rewrite io_bind_eq in Hmr. specialize (Hm w eq_refl).
    destruct (m w) as [[[]|?] w1]; [|done]. injection Hmr as <- <-.
    simpl in Hm. rewrite Hm.
    split; [by eapply continues_refl|apply newly_reviewed_refl]. }
  assert (∀ s, s = store w → is_Some (s !! pr_key)) as Hex by (intros ? ->; by eexists).
  repeat (case_bool_decide; [injection Hfn as <-|]); try done.
  - apply (Hquiet (print_files paths ids)); [apply keeps_print_files|done].
  - apply (Hquiet (print_files paths ids)); [apply keeps_print_files|done].
  - by apply (review_files_newly env paths pr_key ids "skim" st).
  - by apply (review_files_newly env paths pr_key ids "deep" st).
  - apply (Hquiet (list_all env paths pr_key)); [by apply keeps_list_all|done].
  - apply (Hquiet (list_unreviewed env paths pr_key));
      [by apply keeps_list_unreviewed|done].
Qed.

(** The list of approved paths that the loop of the session builds: the
    paths whose review was completed since the session began, each once. *)
Lemma session_loop_newly `{PyStr} env paths pr_key s0 turns :
  ∀ approved w approved' w',
  continues s0 pr_key (store w) →
  newly_reviewed s0 (store w) pr_key approved →
  session_loop env paths pr_key turns approved w = (Return approved', w') →
  continues s0 pr_key (store w')
  ∧ newly_reviewed s0 (store w') pr_key approved'.
Proof.
  induction turns as [|turns IH]; intros approved w approved' w' Hc Hnew Hrun;
    simpl in Hrun.
  - by injection Hrun as <- <-.
  - rewrite io_bind_eq in Hrun. unfold input_or_eof, input in Hrun.
    destruct (stdin w) as [|line rest] eqn:Hin; simpl in Hrun.
    { by injection Hrun as <- <-. }
    destruct (bool_decide (str_strip line = "")); [by injection Hrun as <- <-|].
    destruct (str_split (str_strip line)) as [|cmd ids]; [done|].
    rewrite io_bind_eq in Hrun.
    set (w1 := {| store := store w; stdin := rest;
                  stdout := stdout w ++ [PrSessionPrompt] |}) in *.
    destruct (continues_is_Some _ _ _ Hc) as [st Hst].
    assert (∃ res w2,
              match cmds env paths pr_key cmd with
              | Some fn => fn ids
              | None => print PrUnknownCommand ≫= λ _, mret []
              end w1 = (Return res, w2)
              ∧ continues (store w) pr_key (store w2)
              ∧ newly_reviewed (store w) (store w2) pr_key res)
      as (res & w2 & Hres & Hc2 & Hnew2).
    { destruct (cmds env paths pr_key cmd) as [fn|] eqn:Hfn.
      - destruct (fn ids w1) as [[res|e] w2] eqn:Hfnrun; [|done].
        exists res, w2. split; [done|].
        by apply (cmds_newly env paths pr_key cmd fn ids st w1).
      - eexists [], _. split; [done|].
        split; [by eapply continues_refl|apply newly_reviewed_refl]. }
    rewrite Hres in Hrun. rewrite io_bind_eq in Hrun.
    assert (store (cmd_status env pr_key w2).2 = store w2) as Hsame.
    { apply (keeps_cmd_status env (λ s, s = store w2) pr_key); [|done].
      intros ? ->. by eapply continues_is_Some. }
    destruct (cmd_status env pr_key w2) as [[[]|e] w3]; [|done].
    simpl in Hsame.
    eapply (IH _ w3); [| |exact Hrun]; rewrite Hsame.
    + by eapply continues_trans.
    + by eapply newly_reviewed_app.
Qed.

(** ** Repeated paths in the accumulation *)

(** In the state that the assignments of the loop alone would build, the
    entry of a repeated path is that of its last occurrence. *)
Lemma accumulate_last_wins pre f mid g post :
  path f = path g →
  (∀ h, h ∈ post → path h ≠ path g) →
  files (overview_accumulate (pre ++ f :: mid ++ g :: post)).1 !! path g =
    Some {| lines := file_lines g; reviewed := false |}.
Proof.
  intros Hfg Hpost.
  rewrite accumulate_lookup. unfold last_entry.
  change (pre ++ f :: mid ++ g :: post) with (pre ++ (f :: mid) ++ g :: post).
  rewrite (assoc_L (++) pre (f :: mid) (g :: post)).
  rewrite filter_app, (filter_cons _ g). rewrite decide_True by done.
  assert (filter (λ h, path h = path g) post = []) as ->.
  { clear -Hpost. induction post as [|h post IH]; [done|].
    rewrite filter_cons, decide_False by (apply Hpost; set_solver).
    apply IH. intros h' Hh'. apply Hpost. set_solver. }
  by rewrite last_snoc.
Qed.

(** ** The claims *)

(** C1 (the code departs from it).  The overview is to build and persist a
    state with one unreviewed entry per file and the sum of the line counts;
    for the file list [a.py +5 -0, b.py +0 -3] it is to persist
    [{a.py: 5, b.py: 3}] with [total_lines = 8].  The code raises
    [NameError] on reading [reviewed] at line 147 in the first iteration:
    [save_state] is not reached and the state files are what they were.  The
    assignments of lines 142 to 146 alone would build the state of the
    claim. *)
Theorem C1_overview_two_files_name_error `{PyStr} env config interactive
    pr_key data w :
  pr_number env = Some pr_key →
  pr_view env = Some data →
  pr_files data = two_files →
  (cmd_overview env config interactive w).1 = Raise (NameError "reviewed")
  ∧ store (cmd_overview env config interactive w).2 = store w
  ∧ (overview_accumulate two_files).1 =
      {| files := {[ "a.py" := entry 5 false; "b.py" := entry 3 false ]};
         total_lines := 8 |}.
Proof.
  intros Hk Hd Hfl.
  rewrite (cmd_overview_nonempty env config interactive pr_key data _ _ w Hk Hd Hfl).
  split; [done|]. split; [done|].
  vm_compute. reflexivity.
Qed.

Lemma C1_overview_two_files_name_error_witness :
  (cmd_overview (H:=ascii_str) (sample_env two_files) no_config false empty_world).1
    = Raise (NameError "reviewed")
  ∧ store (cmd_overview (H:=ascii_str) (sample_env two_files) no_config false
             empty_world).2 = ∅.
Proof.
  destruct (C1_overview_two_files_name_error (H:=ascii_str) (sample_env two_files)
              no_config false "42" _ empty_world eq_refl eq_refl eq_refl)
    as (H1 & H2 & _).
  split; [exact H1 | exact H2].
Defined.






(** C4 (amended).  For a path of the state whose entry is already reviewed,
    or for which the user answers [y] to the question, [cmd_review] leaves
    the entry reviewed, with its [lines], [total_lines] and every other entry
    as they were; a further call on the same path reports that the path is
    already reviewed, returns [False] and changes nothing but the console. *)
Theorem C4_review_twice `{PyStr} env path mode mode' pr_key st e w :
  store w !! pr_key = Some st →
  files st !! path = Some e →
  (reviewed e = true
   ∨ ∃ line rest, stdin w = line :: rest ∧ str_lower (str_strip line) = "y") →
  ∃ r1 w1 st1,
    cmd_review env path mode pr_key w = (Return r1, w1)
    ∧ store w1 !! pr_key = Some st1
    ∧ files st1 !! path = Some {| lines := lines e; reviewed := true |}
    ∧ total_lines st1 = total_lines st
    ∧ (∀ q, q ≠ path → files st1 !! q = files st !! q)
    ∧ cmd_review env path mode' pr_key w1 =
        (Return false, emit (PrAlreadyReviewed path) w1).
Proof.
  intros Hst Hp Hcase.
  destruct (reviewed e) eqn:Hr.
  - exists false, (emit (PrAlreadyReviewed path) w), st.
    rewrite (cmd_review_already _ _ _ _ _ _ _ Hst Hp Hr).
    split; [done|]. split; [done|].
    split; [by destruct e; simpl in *; subst|].
    split; [done|]. split; [done|].
    by apply (cmd_review_already env path mode' pr_key st e).
  - destruct Hcase as [|(line & rest & Hin & Hy)]; [done|].
    rewrite (cmd_review_answer _ _ _ _ _ _ _ _ _ Hst Hp Hr Hin).
    rewrite bool_decide_eq_true_2 by done.
    eexists true, _, _. split; [done|]. simpl.
    split; [by rewrite lookup_insert_eq|]. simpl.
    split; [by rewrite lookup_insert_eq|].
    split; [done|].
    split; [intros q Hq; by rewrite lookup_insert_ne|].
    eapply cmd_review_already; simpl.
    + by rewrite lookup_insert_eq.
    + simpl. by rewrite lookup_insert_eq.
    + done.
Qed.

Lemma C4_review_twice_witness :
  ∃ r1 w1 st1,
    cmd_review (H:=ascii_str) (sample_env []) "a.py" "skim" "42"
      (world_with one_unreviewed [" Y "]) = (Return r1, w1)
    ∧ store w1 !! "42" = Some st1
    ∧ files st1 !! "a.py" = Some {| lines := 5; reviewed := true |}
    ∧ total_lines st1 = 5
    ∧ (∀ q, q ≠ "a.py" → files st1 !! q = files one_unreviewed !! q)
    ∧ cmd_review (H:=ascii_str) (sample_env []) "a.py" "deep" "42" w1 =
        (Return false, emit (PrAlreadyReviewed "a.py") w1).
Proof.
  apply (C4_review_twice (H:=ascii_str) (sample_env []) "a.py" "skim" "deep" "42"
           one_unreviewed (entry 5 false) (world_with one_unreviewed [" Y "])).
  - reflexivity.
  - reflexivity.
  - right. exists " Y ", []. split; reflexivity.
Defined.

(** C4, the claim as stated fails.  When the user answers [n] the entry is
    not reviewed after the call, and the state file is what it was. *)
Lemma C4_declined_review_is_not_marked :
  let w := world_with one_unreviewed ["n"] in
  let r := cmd_review (H:=ascii_str) (sample_env []) "a.py" "skim" "42" w in
  r.1 = Return false
  ∧ store r.2 !! "42" = Some one_unreviewed
  ∧ reviewed <$> files one_unreviewed !! "a.py" = Some false.
Proof. vm_compute. repeat split; reflexivity. Qed.

(** C5 (the code departs from it).  Every token that is no base-10 integer
    in [1, N] is to be reported and skipped, the other tokens being
    processed.  With three files the tokens [1 9 x 2] print files 1 and 2
    and two diagnostics, as the claim says.  The token [²] passes
    [isdigit], and [int] raises [ValueError] on it: the tokens [1 ² 2] print
    file 1 and end in the exception, with no diagnostic and file 2 not
    processed. *)
Theorem C5_superscript_digit_raises `{PyStr} `{!PyStrDigits} p1 p2 p3 w :
  print_files [p1; p2; p3] ["1"; "9"; "x"; "2"] w =
    (Return (),
     {| store := store w; stdin := stdin w;
        stdout := stdout w ++ [PrFullPath p1; PrInvalidId "9"; PrInvalidId "x";
                               PrFullPath p2] |})
  ∧ print_files [p1; p2; p3] ["1"; "²"; "2"] w =
      (Raise ValueError, emit (PrFullPath p1) w).
Proof.
  split.
  - rewrite print_files_ascii; [done|].
    repeat apply Forall_cons_2; try apply Forall_nil_2;
      (split; [unfold ascii_text; simpl; repeat constructor | simpl; lia]).
  - unfold print_files, valid_ids. cbn [for_each].
    unfold mbind at 1, IO_bind at 1.
    assert (ascii_text "1") as H1 by (unfold ascii_text; simpl; repeat constructor).
    rewrite (isdigit_ascii "1" H1). simpl.
    assert (String.length "1" ≤ 4300)%nat as Hlen by (simpl; lia).
    rewrite (int_ascii_digits "1" eq_refl Hlen). simpl.
    unfold path_at. rewrite (int_ascii_digits "1" eq_refl Hlen). simpl.
    unfold mbind at 1, IO_bind at 1. simpl.
    unfold mbind at 1, IO_bind at 1.
    rewrite isdigit_superscript, int_superscript. done.
Qed.

Lemma C5_superscript_digit_raises_witness :
  print_files (H:=ascii_str) ["x.c"; "y.c"; "z.c"] ["1"; "²"; "2"] empty_world =
    (Raise ValueError, emit (PrFullPath "x.c") empty_world).
Proof.
  destruct (C5_superscript_digit_raises (H:=ascii_str) "x.c" "y.c" "z.c" empty_world)
    as (_ & Hraise).
  exact Hraise.
Defined.

(** C6 (amended).  For a state in which no entry is reviewed, as every
    state is that the loop of [cmd_overview] accumulates, and whose
    [total_lines] is 0, the status reports 100 percent, 0 lines remaining,
    and as many files remaining as the state has entries; the count is 0
    when the file list is empty. *)
Theorem C6_status_of_fresh_empty_total `{PyStr} env st pr_key w :
  store w !! pr_key = Some st →
  (∀ p e, files st !! p = Some e → reviewed e = false) →
  total_lines st = 0 →
  cmd_status env pr_key w =
    (Return (), emit (PrStatus 0 100 (Z.of_nat (size (files st)))) w)
  ∧ (files st = ∅ → size (files st) = 0%nat)
  ∧ (∀ fl p e, files (overview_accumulate fl).1 !! p = Some e → reviewed e = false)
  ∧ files (overview_accumulate []).1 = ∅.
Proof.
  intros Hst Hfresh Htot. split; [|split; [|split]].
  - rewrite (cmd_status_found env pr_key _ w Hst). rewrite Htot.
    destruct (unreviewed_sums (files st) Hfresh) as [Hrev Hleft].
    rewrite Hrev, Hleft. done.
  - intros ->. done.
  - intros fl p e Hp. by apply accumulate_unreviewed in Hp as [? _].
  - done.
Qed.

Lemma C6_status_of_fresh_empty_total_witness :
  cmd_status (H:=ascii_str) (sample_env []) "42"
    (world_with (overview_accumulate []).1 []) =
  (Return (), emit (PrStatus 0 100 0) (world_with (overview_accumulate []).1 [])).
Proof.
  destruct (C6_status_of_fresh_empty_total (H:=ascii_str) (sample_env [])
              (overview_accumulate []).1
              "42" (world_with (overview_accumulate []).1 []) eq_refl)
    as (Hcmd & _).
  - intros p e Hp. vm_compute in Hp. discriminate.
  - reflexivity.
  - exact Hcmd.
Defined.

(** C6, the claim as stated fails.  A state with one unreviewed file of no
    changed line, as a binary file is listed in a pull request, has
    [total_lines = 0], and the status reports one file remaining.  It is the
    state the loop accumulates from the file list [logo.png +0 -0]. *)
Lemma C6_zero_line_file_remains :
  let st := {| files := {[ "logo.png" := entry 0 false ]}; total_lines := 0 |} in
  cmd_status (H:=ascii_str) (sample_env []) "42" (world_with st []) =
    (Return (), emit (PrStatus 0 100 1) (world_with st []))
  ∧ (overview_accumulate [mkfile "logo.png" 0 0]).1 = st.
Proof. split; vm_compute; reflexivity. Qed.

(** C7.  For a path that is not in the files of the state, [cmd_review]
    prints the unknown-file message and returns [False]; the state files and
    the input are what they were. *)
Theorem C7_unknown_file_no_mutation `{PyStr} env path mode pr_key st w :
  store w !! pr_key = Some st →
  files st !! path = None →
  cmd_review env path mode pr_key w = (Return false, emit PrUnknownFile w)
  ∧ store (cmd_review env path mode pr_key w).2 = store w
  ∧ stdin (cmd_review env path mode pr_key w).2 = stdin w
  ∧ stdout (cmd_review env path mode pr_key w).2 = stdout w ++ [PrUnknownFile].
Proof.
  intros Hst Hp. by rewrite (cmd_review_unknown env path mode pr_key st w Hst Hp).
Qed.

Lemma C7_unknown_file_no_mutation_witness :
  cmd_review (H:=ascii_str) (sample_env []) "c.py" "skim" "42"
    (world_with ten_thirty ["y"]) =
  (Return false, emit PrUnknownFile (world_with ten_thirty ["y"])).
Proof.
  destruct (C7_unknown_file_no_mutation (H:=ascii_str) (sample_env []) "c.py"
              "skim" "42" ten_thirty (world_with ten_thirty ["y"]) eq_refl eq_refl)
    as (Hcmd & _).
  exact Hcmd.
Defined.

(** C8.  After [save_state(state, pr_key)], [load_state(pr_key)] returns the
    saved state, with the same files, lines, flags and [total_lines], and
    asks nothing; the records of other keys are untouched by the save. *)
Theorem C8_save_then_load `{PyStr} env state pr_key w :
  (save_state state pr_key w).1 = Return ()
  ∧ load_state env pr_key (save_state state pr_key w).2 =
      (Return (Some state), (save_state state pr_key w).2)
  ∧ ∀ k, k ≠ pr_key → store (save_state state pr_key w).2 !! k = store w !! k.
Proof.
  split; [done|]. split.
  - apply load_state_found. simpl. by rewrite lookup_insert_eq.
  - intros k Hk. simpl. by rewrite lookup_insert_ne.
Qed.

(** C9.  For a path of the state that is not reviewed, when the user does
    not answer [y] to the question after the review command has run,
    [cmd_review] returns [False], the state files are what they were, and
    the entry is still not reviewed. *)
Theorem C9_declined_review_writes_nothing `{PyStr} env path mode pr_key st e
    line rest w :
  store w !! pr_key = Some st →
  files st !! path = Some e →
  reviewed e = false →
  stdin w = line :: rest →
  str_lower (str_strip line) ≠ "y" →
  cmd_review env path mode pr_key w =
    (Return false,
     {| store := store w; stdin := rest;
        stdout := stdout w ++ [RunReviewCmd (on_review (user_config env)) path;
                               PrPrompt "Mark reviewed?" false] |})
  ∧ (yn "Mark reviewed?" false
       (emit (RunReviewCmd (on_review (user_config env)) path) w)).1 = Return false
  ∧ store (cmd_review env path mode pr_key w).2 !! pr_key = Some st.
Proof.
  intros Hst Hp Hr Hin Hno.
  rewrite (cmd_review_answer _ _ _ _ _ _ _ _ _ Hst Hp Hr Hin).
  rewrite bool_decide_eq_false_2 by done.
  split; [done|]. split; [|done].
  rewrite (yn_line _ _ line rest) by done. simpl.
  rewrite (bool_decide_eq_false_2 _ Hno). by destruct (bool_decide _).
Qed.

Lemma C9_declined_review_writes_nothing_witness :
  cmd_review (H:=ascii_str) (sample_env []) "a.py" "skim" "42"
    (world_with one_unreviewed ["no"; "y"]) =
  (Return false,
   {| store := {[ "42" := one_unreviewed ]}; stdin := ["y"];
      stdout := [RunReviewCmd None "a.py"; PrPrompt "Mark reviewed?" false] |}).
Proof.
  destruct (C9_declined_review_writes_nothing (H:=ascii_str) (sample_env [])
              "a.py" "skim" "42" one_unreviewed (entry 5 false) "no" ["y"]
              (world_with one_unreviewed ["no"; "y"])
              eq_refl eq_refl eq_refl eq_refl) as (Hcmd & _).
  - vm_compute. discriminate.
  - exact Hcmd.
Defined.

(** C10 (the code departs from it).  On a file list in which a path occurs
    more than once, as on every list that is not empty, [cmd_overview] ends
    in the [NameError] of line 147 in the first iteration of its loop: it
    keeps no entry for the path and saves nothing.  The assignments of
    lines 142 to 146 alone would keep one entry for the path, with the line
    count of its last occurrence, and would add the line counts of all
    occurrences to [total_lines]. *)
Theorem C10_duplicate_paths_name_error `{PyStr} env config interactive pr_key data
    pre f mid g post w :
  pr_number env = Some pr_key →
  pr_view env = Some data →
  pr_files data = pre ++ f :: mid ++ g :: post →
  path f = path g →
  (∀ h, h ∈ post → path h ≠ path g) →
  (cmd_overview env config interactive w).1 = Raise (NameError "reviewed")
  ∧ store (cmd_overview env config interactive w).2 = store w
  ∧ stdin (cmd_overview env config interactive w).2 = stdin w
  ∧ files (overview_accumulate (pr_files data)).1 !! path g =
      Some {| lines := file_lines g; reviewed := false |}
  ∧ total_lines (overview_accumulate (pr_files data)).1 = list_total (pr_files data).
Proof.
  intros Hk Hd Hfl Hfg Hpost.
  assert (∃ f0 fl0, pr_files data = f0 :: fl0) as (f0 & fl0 & Hne).
  { rewrite Hfl. destruct pre; simpl; eauto. }
  rewrite (cmd_overview_nonempty env config interactive pr_key data f0 fl0 w Hk Hd Hne).
  split; [done|]. split; [done|]. split; [done|].
  split; [|apply accumulate_total].
  rewrite Hfl. by apply accumulate_last_wins.
Qed.

Lemma C10_duplicate_paths_name_error_witness :
  (cmd_overview (H:=ascii_str)
     (sample_env [mkfile "a.py" 1 0; mkfile "b.py" 4 4; mkfile "a.py" 2 0])
     no_config false empty_world).1 = Raise (NameError "reviewed")
  ∧ store (cmd_overview (H:=ascii_str)
             (sample_env [mkfile "a.py" 1 0; mkfile "b.py" 4 4; mkfile "a.py" 2 0])
             no_config false empty_world).2 = ∅.
Proof.
  destruct (C10_duplicate_paths_name_error (H:=ascii_str)
              (sample_env [mkfile "a.py" 1 0; mkfile "b.py" 4 4; mkfile "a.py" 2 0])
              no_config false "42" _ [] (mkfile "a.py" 1 0) [mkfile "b.py" 4 4]
              (mkfile "a.py" 2 0) [] empty_world eq_refl eq_refl eq_refl eq_refl)
    as (Hraise & Hstore & _).
  - intros h Hh. inversion Hh.
  - split; [exact Hraise|exact Hstore].
Defined.

(** * Further properties of the commands *)

(** X1.  When [load_state(pr_key)] returns, its result is what the state
    file of the key holds at that moment: the state of the file, or [None]
    when there is no file, whatever questions and overviews came before. *)
Theorem X1_load_state_returns_the_stored_state `{PyStr} env pr_key w r w' :
  load_state env pr_key w = (Return r, w') → store w' !! pr_key = r.
Proof.
  intros Hrun. pose proof (load_state_rec_result env (recursion_limit env) pr_key w) as Hres.
  unfold load_state in Hrun. rewrite Hrun in Hres. by destruct r.
Qed.

Lemma X1_load_state_returns_the_stored_state_witness :
  store (world_with ten_thirty []) !! "42" = Some ten_thirty.
Proof.
  apply (X1_load_state_returns_the_stored_state (H:=ascii_str) (sample_env []) "42"
           (world_with ten_thirty []) (Some ten_thirty) (world_with ten_thirty [])).
  vm_compute. reflexivity.
Defined.

(** X2.  Without a state file, when the offer of an overview is not answered
    with [y], [cmd_status] prints that there is no state and returns; the
    state files are what they were and one line of input is read. *)
Theorem X2_status_without_state_declined `{PyStr} env pr_key line rest w :
  store w !! pr_key = None →
  stdin w = line :: rest →
  str_lower (str_strip line) ≠ "y" →
  cmd_status env pr_key w =
    (Return (),
     {| store := store w; stdin := rest;
        stdout := stdout w ++ [PrPrompt "No state file. Run overview?" false;
                               PrNoState] |}).
Proof. apply cmd_status_declined. Qed.

Lemma X2_status_without_state_declined_witness :
  cmd_status (H:=ascii_str) (sample_env two_files) "42"
    {| store := ∅; stdin := ["no"; "y"]; stdout := [] |} =
    (Return (),
     {| store := ∅; stdin := ["y"];
        stdout := [PrPrompt "No state file. Run overview?" false; PrNoState] |}).
Proof.
  apply (X2_status_without_state_declined (H:=ascii_str) (sample_env two_files) "42"
           "no" ["y"] {| store := ∅; stdin := ["no"; "y"]; stdout := [] |});
    [reflexivity|reflexivity|vm_compute; discriminate].
Defined.

(** X3.  Without a state file, when the offer of an overview is not answered
    with [y], [cmd_review] reports an unknown file and returns [False]: the
    review command is not run, no second question is asked and nothing is
    saved. *)
Theorem X3_review_without_state_declined `{PyStr} env path mode pr_key line rest w :
  store w !! pr_key = None →
  stdin w = line :: rest →
  str_lower (str_strip line) ≠ "y" →
  cmd_review env path mode pr_key w =
    (Return false,
     {| store := store w; stdin := rest;
        stdout := stdout w ++ [PrPrompt "No state file. Run overview?" false;
                               PrUnknownFile] |}).
Proof.
  intros Hst Hin Hno. unfold cmd_review.
  rewrite io_bind_eq, (load_state_declined env pr_key line rest w Hst Hin Hno).
  rewrite io_bind_eq. unfold print, emit, mret, IO_ret. simpl.
  by rewrite <- app_assoc.
Qed.

Lemma X3_review_without_state_declined_witness :
  cmd_review (H:=ascii_str) (sample_env two_files) "a.py" "deep" "42"
    {| store := ∅; stdin := [" N "; "y"]; stdout := [] |} =
    (Return false,
     {| store := ∅; stdin := ["y"];
        stdout := [PrPrompt "No state file. Run overview?" false; PrUnknownFile] |}).
Proof.
  apply (X3_review_without_state_declined (H:=ascii_str) (sample_env two_files)
           "a.py" "deep" "42" " N " ["y"]
           {| store := ∅; stdin := [" N "; "y"]; stdout := [] |});
    [reflexivity|reflexivity|vm_compute; discriminate].
Defined.


(** X5.  [cmd_reset] removes the state file of the key and no other, reads
    no input, and says whether there was a file; a second reset finds
    nothing to remove. *)
Theorem X5_reset_removes_only_its_key pr_key w :
  (cmd_reset pr_key w).1 = Return ()
  ∧ store (cmd_reset pr_key w).2 !! pr_key = None
  ∧ (∀ k, k ≠ pr_key → store (cmd_reset pr_key w).2 !! k = store w !! k)
  ∧ stdin (cmd_reset pr_key w).2 = stdin w
  ∧ stdout (cmd_reset pr_key w).2 =
      stdout w ++ [match store w !! pr_key with
                   | Some _ => PrResetDone
                   | None => PrNoReset
                   end]
  ∧ cmd_reset pr_key (cmd_reset pr_key w).2 =
      (Return (), emit PrNoReset (cmd_reset pr_key w).2).
Proof.
  rewrite !cmd_reset_eq. simpl. rewrite lookup_delete_eq.
  repeat split; try done.
  - intros k Hk. by rewrite lookup_delete_ne.
  - unfold emit. simpl. by rewrite delete_id by apply lookup_delete_eq.
Qed.

(** X6.  After a reset the progress is gone for the status: it offers an
    overview, and when that is declined it reports that there is no state,
    whatever the state file held before the reset. *)
Theorem X6_status_after_reset `{PyStr} env pr_key line rest w :
  stdin w = line :: rest →
  str_lower (str_strip line) ≠ "y" →
  cmd_status env pr_key (cmd_reset pr_key w).2 =
    (Return (),
     {| store := delete pr_key (store w); stdin := rest;
        stdout := stdout w ++
          [match store w !! pr_key with
           | Some _ => PrResetDone
           | None => PrNoReset
           end;
           PrPrompt "No state file. Run overview?" false; PrNoState] |}).
Proof.
  intros Hin Hno. rewrite cmd_reset_eq.
  rewrite (cmd_status_declined env pr_key line rest); simpl;
    [by rewrite <- app_assoc|apply lookup_delete_eq|done|done].
Qed.

Lemma X6_status_after_reset_witness :
  cmd_status (H:=ascii_str) (sample_env []) "42"
    (cmd_reset "42" (world_with ten_thirty ["n"])).2 =
    (Return (),
     {| store := delete "42" (store (world_with ten_thirty ["n"])); stdin := [];
        stdout := [PrResetDone; PrPrompt "No state file. Run overview?" false;
                   PrNoState] |}).
Proof.
  apply (X6_status_after_reset (H:=ascii_str) (sample_env []) "42" "n" []
           (world_with ten_thirty ["n"]));
    [reflexivity|vm_compute; discriminate].
Defined.

(** X7.  One call of [cmd_review] on a pull request that has a state,
    however it ends: the state file of the pull request keeps its
    [total_lines], its paths and their [lines], no reviewed flag is cleared,
    and no other state file is touched.  When the call returns [True] the
    path is marked reviewed in the state file. *)
Theorem X7_review_keeps_progress `{PyStr} env path mode pr_key st w :
  store w !! pr_key = Some st →
  continues (store w) pr_key (store (cmd_review env path mode pr_key w).2)
  ∧ ((cmd_review env path mode pr_key w).1 = Return true →
     reviewed_in (store (cmd_review env path mode pr_key w).2) pr_key path).
Proof. apply cmd_review_outcome. Qed.

Lemma X7_review_keeps_progress_witness :
  continues (store (world_with ten_thirty ["y"])) "42"
    (store (cmd_review (H:=ascii_str) (sample_env []) "b.py" "skim" "42"
              (world_with ten_thirty ["y"])).2)
  ∧ ((cmd_review (H:=ascii_str) (sample_env []) "b.py" "skim" "42"
        (world_with ten_thirty ["y"])).1 = Return true →
     reviewed_in (store (cmd_review (H:=ascii_str) (sample_env []) "b.py" "skim" "42"
                           (world_with ten_thirty ["y"])).2) "42" "b.py").
Proof.
  apply (X7_review_keeps_progress (H:=ascii_str) (sample_env []) "b.py" "skim" "42"
           ten_thirty (world_with ten_thirty ["y"])).
  reflexivity.
Defined.

(** X8.  A whole interactive session on a pull request that has a state,
    whatever is typed and however the session ends: the state file of the
    pull request keeps its [total_lines], its paths and their [lines], every
    file that was reviewed is still reviewed, and the state files of other
    pull requests are what they were. *)
Theorem X8_session_keeps_progress `{PyStr} env paths pr_key st w :
  store w !! pr_key = Some st →
  continues (store w) pr_key (store (_interactive_session env paths pr_key w).2).
Proof.
  intros Hst. apply keeps_interactive_session. by eapply continues_refl.
Qed.

Lemma X8_session_keeps_progress_witness :
  continues (store (world_with ten_thirty ["rs 2"; "y"; "frob"; ""])) "42"
    (store (_interactive_session (H:=ascii_str) (sample_env []) ["a.py"; "b.py"] "42"
              (world_with ten_thirty ["rs 2"; "y"; "frob"; ""])).2).
Proof.
  apply (X8_session_keeps_progress (H:=ascii_str) (sample_env []) ["a.py"; "b.py"]
           "42" ten_thirty (world_with ten_thirty ["rs 2"; "y"; "frob"; ""])).
  reflexivity.
Defined.

(** X9.  The list that [review_files] returns is truthful: each path in it
    is one of the paths of the session and is marked reviewed in the state
    file when [review_files] returns. *)
Theorem X9_review_files_approved_are_reviewed `{PyStr} env paths pr_key ids mode
    st w approved :
  store w !! pr_key = Some st →
  (review_files env paths pr_key ids mode w).1 = Return approved →
  ∀ p, p ∈ approved →
    p ∈ paths
    ∧ reviewed_in (store (review_files env paths pr_key ids mode w).2) pr_key p.
Proof.
  intros Hst Hrun.
  destruct (review_files env paths pr_key ids mode w) as [r w'] eqn:Hrf.
  simpl in *. subst r.
  by destruct (review_files_approved env paths pr_key ids mode st w approved w' Hst Hrf).
Qed.

Lemma X9_review_files_approved_are_reviewed_witness :
  "b.py" ∈ ["a.py"; "b.py"]
  ∧ reviewed_in
      (store (review_files (H:=ascii_str) (sample_env []) ["a.py"; "b.py"] "42"
                ["1"; "7"; "2"] "deep" (world_with ten_thirty ["y"])).2) "42" "b.py".
Proof.
  apply (X9_review_files_approved_are_reviewed (H:=ascii_str) (sample_env [])
           ["a.py"; "b.py"] "42" ["1"; "7"; "2"] "deep" ten_thirty
           (world_with ten_thirty ["y"]) ["b.py"]);
    [reflexivity|vm_compute; reflexivity|apply list_elem_of_singleton; reflexivity].
Defined.

(** X10.  For a state whose [total_lines] is the sum of the [lines] of its
    entries, none of them negative, as the overview builds it from distinct
    paths, the status reports the lines of the entries that are not reviewed
    as remaining, and a percentage between 0 and 100. *)
Theorem X10_status_of_consistent_state `{PyStr} env pr_key st w :
  store w !! pr_key = Some st →
  total_lines st = sum_lines (files st) →
  (∀ p e, files st !! p = Some e → 0 ≤ lines e) →
  total_lines st ≤ 2 ^ 43 →
  ∃ pct,
    cmd_status env pr_key w =
      (Return (),
       emit (PrStatus (unreviewed_lines (files st)) pct
                      (unreviewed_count (files st))) w)
    ∧ 0 ≤ pct ≤ 100
    ∧ 0 ≤ unreviewed_lines (files st) ≤ total_lines st.
Proof.
  intros Hst Htot Hnn Hbound.
  pose proof (sum_lines_split (files st)) as Hsplit.
  destruct (lines_nonneg_sums (files st) Hnn) as [Hr Hu].
  rewrite (cmd_status_found env pr_key st w Hst).
  replace (total_lines st - reviewed_lines (files st))
    with (unreviewed_lines (files st)) by lia.
  destruct (decide (total_lines st = 0)) as [Hz|Hz].
  - exists 100. unfold percent_reviewed. rewrite decide_True by done.
    split; [done|lia].
  - destruct (percent_reviewed_range (reviewed_lines (files st)) (total_lines st))
      as (pct & -> & Hpct); [lia|lia|].
    exists pct. split; [done|lia].
Qed.

Lemma X10_status_of_consistent_state_witness :
  ∃ pct,
    cmd_status (H:=ascii_str) (sample_env []) "42" (world_with ten_thirty []) =
      (Return (),
       emit (PrStatus (unreviewed_lines (files ten_thirty)) pct
                      (unreviewed_count (files ten_thirty)))
            (world_with ten_thirty []))
    ∧ 0 ≤ pct ≤ 100
    ∧ 0 ≤ unreviewed_lines (files ten_thirty) ≤ total_lines ten_thirty.
Proof.
  apply (X10_status_of_consistent_state (H:=ascii_str) (sample_env []) "42"
           ten_thirty (world_with ten_thirty [])).
  - reflexivity.
  - vm_compute. reflexivity.
  - intros p e Hp.
    destruct (decide (p = "a.py")) as [->|Ha];
      [vm_compute in Hp; injection Hp as <-; simpl; lia|].
    destruct (decide (p = "b.py")) as [->|Hb];
      [vm_compute in Hp; injection Hp as <-; simpl; lia|].
    unfold ten_thirty in Hp. simpl in Hp.
    rewrite lookup_insert_ne, lookup_singleton_ne in Hp by done. done.
  - vm_compute. discriminate.
Defined.

(** X11.  When every entry of the state is reviewed and [total_lines] is the
    sum of their [lines], the status reports 0 lines remaining, 100 percent
    and 0 files: the double quotient of an integer by itself is 1, and 100
    times it is 100, with no loss. *)
Theorem X11_status_when_all_reviewed `{PyStr} env pr_key st w :
  store w !! pr_key = Some st →
  (∀ p e, files st !! p = Some e → reviewed e = true) →
  total_lines st = sum_lines (files st) →
  0 ≤ total_lines st < 2 ^ 1000 →
  cmd_status env pr_key w = (Return (), emit (PrStatus 0 100 0) w).
Proof.
  intros Hst Hall Htot Hbound.
  pose proof (sum_lines_split (files st)) as Hsplit.
  destruct (all_reviewed_sums (files st) Hall) as [Hu Hc].
  rewrite (cmd_status_found env pr_key st w Hst), Hc.
  replace (reviewed_lines (files st)) with (total_lines st) by lia.
  rewrite Z.sub_diag.
  destruct (decide (total_lines st = 0)) as [Hz|Hz].
  - unfold percent_reviewed. by rewrite decide_True.
  - by rewrite percent_reviewed_all by lia.
Qed.

Lemma X11_status_when_all_reviewed_witness :
  cmd_status (H:=ascii_str) (sample_env []) "42" (world_with all_reviewed_state []) =
    (Return (), emit (PrStatus 0 100 0) (world_with all_reviewed_state [])).
Proof.
  apply (X11_status_when_all_reviewed (H:=ascii_str) (sample_env []) "42"
           all_reviewed_state (world_with all_reviewed_state [])).
  - reflexivity.
  - intros p e Hp.
    destruct (decide (p = "a.py")) as [->|Ha];
      [vm_compute in Hp; by injection Hp as <-|].
    destruct (decide (p = "b.py")) as [->|Hb];
      [vm_compute in Hp; by injection Hp as <-|].
    unfold all_reviewed_state in Hp. simpl in Hp.
    rewrite lookup_insert_ne, lookup_singleton_ne in Hp by done. done.
  - vm_compute. reflexivity.
  - split; [vm_compute; discriminate|].
    assert (2 ^ 6 ≤ 2 ^ 1000) by (apply Z.pow_le_mono_r; lia).
    change (total_lines all_reviewed_state) with 49. change (2 ^ 6) with 64 in *. lia.
Defined.

(** X12.  A review that is confirmed takes the lines of the file off what
    the status reports as remaining, and one off its count of files; the
    percentage is that of the reviewed lines with the lines of the file
    added. *)
Theorem X12_confirmed_review_advances_status `{PyStr} env path mode pr_key st e
    line rest w :
  store w !! pr_key = Some st →
  files st !! path = Some e →
  reviewed e = false →
  stdin w = line :: rest →
  str_lower (str_strip line) = "y" →
  let w1 := (cmd_review env path mode pr_key w).2 in
  cmd_status env pr_key w1 =
    match percent_reviewed (reviewed_lines (files st) + lines e) (total_lines st) with
    | Return pct =>
        (Return (),
         emit (PrStatus (total_lines st - reviewed_lines (files st) - lines e) pct
                        (unreviewed_count (files st) - 1)) w1)
    | Raise err => (Raise err, w1)
    end.
Proof.
  intros Hst Hp Hr Hin Hy w1. subst w1.
  rewrite (cmd_review_answer _ _ _ _ _ _ _ _ _ Hst Hp Hr Hin).
  rewrite bool_decide_eq_true_2 by done. cbn [snd].
  erewrite cmd_status_found; [|simpl; apply lookup_insert_eq].
  cbn [files total_lines].
  destruct (mark_reviewed_sums (files st) path e Hp Hr) as (-> & _ & -> & _).
  replace (total_lines st - (reviewed_lines (files st) + lines e))
    with (total_lines st - reviewed_lines (files st) - lines e) by lia.
  done.
Qed.

Lemma X12_confirmed_review_advances_status_witness :
  cmd_status (H:=ascii_str) (sample_env []) "42"
    (cmd_review (H:=ascii_str) (sample_env []) "b.py" "skim" "42"
       (world_with ten_thirty ["y"])).2 =
    (Return (),
     emit (PrStatus 0 100 0)
       (cmd_review (H:=ascii_str) (sample_env []) "b.py" "skim" "42"
          (world_with ten_thirty ["y"])).2).
Proof.
  exact (X12_confirmed_review_advances_status (H:=ascii_str) (sample_env []) "b.py"
           "skim" "42" ten_thirty (entry 30 false) "y" [] (world_with ten_thirty ["y"])
           eq_refl eq_refl eq_refl eq_refl eq_refl).
Defined.

(** X13.  On tokens of at most 4300 ASCII characters, the length up to
    which [int] converts a string of digits, [print_files] never raises: in the
    order of the tokens it prints the path of each token that is a decimal
    number from 1 to the number of paths, and a diagnostic for every other
    token, one line per token; with no paths every token gets the
    diagnostic.  Only the console changes. *)
Theorem X13_print_files_plain_tokens `{PyStr} `{!PyStrDigits} paths ids w :
  Forall plain_token ids →
  print_files paths ids w = (Return (), printed w (print_files_events paths ids))
  ∧ length (print_files_events paths ids) = length ids
  ∧ print_files_events [] ids = PrInvalidId <$> ids.
Proof.
  intros Hids. split; [by apply print_files_ascii|].
  split; [apply length_fmap|].
  unfold print_files_events. apply list_fmap_ext. intros _ i _.
  unfold valid_token. simpl.
  destruct (ascii_digits i); [|done]. simpl.
  by rewrite bool_decide_eq_false_2 by lia.
Qed.

Lemma X13_print_files_plain_tokens_witness :
  print_files (H:=ascii_str) ["a.py"; "b.py"] ["2"; "0"; "b"; "1"] empty_world =
    (Return (),
     printed empty_world (print_files_events ["a.py"; "b.py"] ["2"; "0"; "b"; "1"]))
  ∧ length (print_files_events ["a.py"; "b.py"] ["2"; "0"; "b"; "1"]) = 4%nat
  ∧ print_files_events [] ["2"; "0"; "b"; "1"] =
      PrInvalidId <$> ["2"; "0"; "b"; "1"].
Proof.
  apply (@X13_print_files_plain_tokens ascii_str ascii_str_digits ["a.py"; "b.py"]
           ["2"; "0"; "b"; "1"] empty_world).
  repeat apply Forall_cons_2; try apply Forall_nil_2;
    (split; [unfold ascii_text; simpl; repeat constructor | simpl; lia]).
Defined.

(** X14.  Whatever the tokens and whatever [isdigit] and [int] make of them,
    [print_files] ends normally or in the [ValueError] of [int]: the range
    check keeps every index within the list of paths, so that no
    [IndexError] arises and no path is taken from the end of the list; the
    state files and the input are what they were. *)
Theorem X14_print_files_never_out_of_range `{PyStr} paths ids w :
  ((print_files paths ids w).1 = Return ()
   ∨ (print_files paths ids w).1 = Raise ValueError)
  ∧ store (print_files paths ids w).2 = store w
  ∧ stdin (print_files paths ids w).2 = stdin w.
Proof. apply print_files_outcome. Qed.

(** X15.  With a state file, [list_all] prints one line per path of the
    session, in order and numbered from 1, with the [lines] of the entry of
    the path or 0 without entry; [list_unreviewed] prints those of these
    lines whose path has no reviewed entry, under the same numbers. *)
Theorem X15_listings `{PyStr} env paths pr_key st w :
  store w !! pr_key = Some st →
  list_all env paths pr_key w = (Return (), printed w (listing (files st) paths))
  ∧ list_unreviewed env paths pr_key w =
      (Return (),
       printed w (List.filter (unreviewed_line (files st)) (listing (files st) paths)))
  ∧ length (listing (files st) paths) = length paths
  ∧ ∀ n p, paths !! n = Some p →
      listing (files st) paths !! n =
        Some (PrListLine (Z.of_nat n + 1) p (default 0 (lines <$> files st !! p))).
Proof.
  intros Hst. unfold list_all, list_unreviewed.
  rewrite !io_bind_eq, (load_state_found env pr_key st w Hst).
  split; [apply list_lines_all|]. split; [apply list_lines_unreviewed|].
  split.
  - unfold listing. rewrite length_fmap. clear.
    generalize 1. induction paths as [|p l IH]; intros s; simpl; [done|].
    by rewrite IH.
  - intros n p Hn. unfold listing. rewrite list_lookup_fmap.
    rewrite (enumerate_lookup paths 1 n p Hn). simpl. unfold list_line. simpl.
    do 2 f_equal. lia.
Qed.

Lemma X15_listings_witness :
  list_all (H:=ascii_str) (sample_env []) ["a.py"; "b.py"; "c.py"] "42"
    (world_with ten_thirty []) =
    (Return (),
     printed (world_with ten_thirty [])
       [PrListLine 1 "a.py" 10; PrListLine 2 "b.py" 30; PrListLine 3 "c.py" 0])
  ∧ list_unreviewed (H:=ascii_str) (sample_env []) ["a.py"; "b.py"; "c.py"] "42"
      (world_with ten_thirty []) =
      (Return (),
       printed (world_with ten_thirty [])
         [PrListLine 2 "b.py" 30; PrListLine 3 "c.py" 0]).
Proof.
  destruct (X15_listings (H:=ascii_str) (sample_env []) ["a.py"; "b.py"; "c.py"] "42"
              ten_thirty (world_with ten_thirty []) eq_refl) as (Hall & Hun & _).
  split; [exact Hall|exact Hun].
Defined.

(** X16.  The number that a listing shows before a path selects that path:
    given as a decimal token to [print_files], it prints the path. *)
Theorem X16_listed_number_selects_the_path `{PyStr} `{!PyStrDigits} fs paths n p
    token w :
  paths !! n = Some p →
  plain_token token →
  ascii_digits token = true →
  decimal_value token = Z.of_nat n + 1 →
  listing fs paths !! n =
    Some (PrListLine (decimal_value token) p (default 0 (lines <$> fs !! p)))
  ∧ print_files paths [token] w = (Return (), emit (PrFullPath p) w).
Proof.
  intros Hn Htok Hdig Hval. split.
  - unfold listing. rewrite list_lookup_fmap.
    rewrite (enumerate_lookup paths 1 n p Hn). simpl. unfold list_line. simpl.
    do 2 f_equal. lia.
  - rewrite print_files_ascii by (by apply Forall_cons_2; [|apply Forall_nil_2]).
    unfold print_files_events, valid_token. simpl. rewrite Hdig, Hval.
    pose proof (lookup_lt_Some _ _ _ Hn) as Hlt.
    rewrite bool_decide_eq_true_2 by lia. simpl.
    replace (Z.to_nat (Z.of_nat n + 1 - 1)) with n by lia.
    rewrite Hn. done.
Qed.

Lemma X16_listed_number_selects_the_path_witness :
  listing (files ten_thirty) ["a.py"; "b.py"] !! 1%nat =
    Some (PrListLine (decimal_value "2") "b.py"
            (default 0 (lines <$> files ten_thirty !! "b.py")))
  ∧ print_files (H:=ascii_str) ["a.py"; "b.py"] ["2"] empty_world =
      (Return (), emit (PrFullPath "b.py") empty_world).
Proof.
  apply (@X16_listed_number_selects_the_path ascii_str ascii_str_digits
           (files ten_thirty) ["a.py"; "b.py"] 1%nat "b.py" "2" empty_world).
  - reflexivity.
  - split; [unfold ascii_text; simpl; repeat constructor | simpl; lia].
  - reflexivity.
  - reflexivity.
Defined.

(** X17.  The loop of the session takes one line of input per turn, and so
    it ends: with more turns than the input has lines, a larger number of
    turns gives the same outcome, the same state files and the same
    console. *)
Theorem X17_session_ends_with_its_input `{PyStr} env paths pr_key turns approved w :
  (length (stdin w) < turns)%nat →
  session_loop env paths pr_key turns approved w =
    session_loop env paths pr_key (S (length (stdin w))) approved w.
Proof. intros Hlt. apply session_loop_turns; lia. Qed.

Lemma X17_session_ends_with_its_input_witness :
  session_loop (H:=ascii_str) (sample_env []) ["a.py"; "b.py"] "42" 50 []
    (world_with ten_thirty ["rd 2"; "y"; "ls"]) =
    session_loop (H:=ascii_str) (sample_env []) ["a.py"; "b.py"] "42" 4 []
      (world_with ten_thirty ["rd 2"; "y"; "ls"]).
Proof.
  apply (X17_session_ends_with_its_input (H:=ascii_str) (sample_env [])
           ["a.py"; "b.py"] "42" 50 [] (world_with ten_thirty ["rd 2"; "y"; "ls"])).
  simpl. lia.
Defined.

(** X18.  Status without a state file, the offer of an overview accepted,
    for a pull request without files: the overview is printed, the empty
    state is saved under the key, and the status of that state follows, 0
    lines remaining, 100 percent, 0 files. *)
Theorem X18_status_runs_the_overview `{PyStr} env pr_key data line rest w :
  store w !! pr_key = None →
  stdin w = line :: rest →
  str_lower (str_strip line) = "y" →
  pr_number env = Some pr_key →
  pr_view env = Some data →
  pr_files data = [] →
  recursion_limit env ≠ 0%nat →
  cmd_status env pr_key w =
    (Return (),
     {| store := <[pr_key := empty_state]> (store w); stdin := rest;
        stdout := stdout w ++ [PrPrompt "No state file. Run overview?" false]
                    ++ overview_header (user_config env) data
                    ++ [PrKey pr_key; PrStateFile pr_key; PrTotal 0 0;
                        PrStatus 0 100 0] |}).
Proof.
  intros Hst Hin Hy Hk Hd Hfl Hlim. unfold cmd_status, load_state.
  rewrite io_bind_eq, load_state_rec_step, Hst, (yn_line _ _ line rest w Hin), Hy.
  rewrite bool_decide_eq_false_2 by done. rewrite bool_decide_eq_true_2 by done.
  rewrite (overview_and_save_empty env (user_config env) false pr_key data _ Hk Hd Hfl).
  generalize (overview_header (user_config env) data). intros header.
  destruct (recursion_limit env) as [|depth]; [done|].
  rewrite load_state_rec_step. cbn [store]. rewrite lookup_insert_eq.
  rewrite io_bind_eq. cbn [files total_lines].
  unfold reviewed_lines, unreviewed_count. rewrite !map_fold_empty.
  unfold lift, percent_reviewed. rewrite decide_True by done.
  unfold print, emit, empty_state. simpl. rewrite <- !app_assoc. done.
Qed.

Lemma X18_status_runs_the_overview_witness :
  cmd_status (H:=ascii_str) (sample_env []) "42"
    {| store := ∅; stdin := ["Y"]; stdout := [] |} =
    (Return (),
     {| store := {[ "42" := empty_state ]}; stdin := [];
        stdout := [PrPrompt "No state file. Run overview?" false;
                   PrSummary "Fix ABC-123"; PrJira None "ABC-123"; PrFileSummary;
                   PrKey "42"; PrStateFile "42"; PrTotal 0 0; PrStatus 0 100 0] |}).
Proof.
  exact (X18_status_runs_the_overview (H:=ascii_str) (sample_env []) "42"
           {| title := "Fix ABC-123"; body := ""; pr_files := [] |} "Y" []
           {| store := ∅; stdin := ["Y"]; stdout := [] |}
           eq_refl eq_refl eq_refl eq_refl eq_refl eq_refl
           (λ E : 1000%nat = 0%nat, eq_ind 1000%nat (λ n, match n with O => False | S _ => True end) I 0%nat E)).
Defined.

(** X19.  Status or review without a state file, the offer of an overview
    accepted, for a pull request with at least one file: the overview ends
    in the [NameError] of its loop, so does the command, and the state files
    are what they were. *)
Theorem X19_accepted_overview_with_files `{PyStr} env path mode pr_key k data f fl
    line rest w :
  store w !! pr_key = None →
  stdin w = line :: rest →
  str_lower (str_strip line) = "y" →
  pr_number env = Some k →
  pr_view env = Some data →
  pr_files data = f :: fl →
  let w' := {| store := store w; stdin := rest;
               stdout := stdout w ++ [PrPrompt "No state file. Run overview?" false]
                           ++ overview_header (user_config env) data |} in
  cmd_status env pr_key w = (Raise (NameError "reviewed"), w')
  ∧ cmd_review env path mode pr_key w = (Raise (NameError "reviewed"), w').
Proof.
  intros Hst Hin Hy Hk Hd Hfl w'.
  assert (load_state env pr_key w = (Raise (NameError "reviewed"), w')) as Hload.
  { unfold load_state.
    rewrite load_state_rec_step, Hst, (yn_line _ _ line rest w Hin), Hy.
    rewrite bool_decide_eq_false_2 by done. rewrite bool_decide_eq_true_2 by done.
    rewrite (overview_and_save_nonempty env (user_config env) false k data f fl _
               Hk Hd Hfl).
    subst w'. generalize (overview_header (user_config env) data). intros header. simpl. by rewrite <- app_assoc. }
  unfold cmd_status, cmd_review. by rewrite !io_bind_eq, Hload.
Qed.

Lemma X19_accepted_overview_with_files_witness :
  let w' := {| store := ∅; stdin := [];
               stdout := [PrPrompt "No state file. Run overview?" false]
                           ++ overview_header (H:=ascii_str) no_config
                                {| title := "Fix ABC-123"; body := "";
                                   pr_files := two_files |} |} in
  cmd_status (H:=ascii_str) (sample_env two_files) "42"
    {| store := ∅; stdin := ["y"]; stdout := [] |} = (Raise (NameError "reviewed"), w')
  ∧ cmd_review (H:=ascii_str) (sample_env two_files) "a.py" "skim" "42"
      {| store := ∅; stdin := ["y"]; stdout := [] |} = (Raise (NameError "reviewed"), w').
Proof.
  apply (X19_accepted_overview_with_files (H:=ascii_str) (sample_env two_files)
           "a.py" "skim" "42" "42"
           {| title := "Fix ABC-123"; body := ""; pr_files := two_files |}
           (mkfile "a.py" 5 0) [mkfile "b.py" 0 3] "y" []
           {| store := ∅; stdin := ["y"]; stdout := [] |}); reflexivity.
Defined.

(** X20.  A session whose first line is blank, or whose input is at its end,
    runs no command: it prints the list of commands and the prompt, a
    newline at the end of the input, and returns, with no status and no
    summary; the state files are what they were. *)
Theorem X20_session_ends_on_blank_or_eof `{PyStr} env paths pr_key w :
  match stdin w with
  | [] => True
  | line :: _ => str_strip line = ""
  end →
  _interactive_session env paths pr_key w =
    (Return (),
     {| store := store w; stdin := tail (stdin w);
        stdout := stdout w ++ [PrCommands; PrSessionPrompt]
                    ++ match stdin w with [] => [PrNewline] | _ => [] end |}).
Proof.
  intros Hblank. unfold _interactive_session.
  rewrite io_bind_eq. unfold print at 1. rewrite io_bind_eq.
  cbn [session_loop]. rewrite io_bind_eq. unfold input_or_eof, input, emit.
  cbn [stdin store stdout].
  destruct (stdin w) as [|line rest]; simpl.
  - unfold mret, IO_ret, emit. simpl. rewrite <- !app_assoc. done.
  - rewrite Hblank. simpl. unfold mret, IO_ret. rewrite <- !app_assoc. done.
Qed.

Lemma X20_session_ends_on_blank_or_eof_witness :
  _interactive_session (H:=ascii_str) (sample_env []) ["a.py"] "42"
    (world_with ten_thirty ["  "; "rs 1"]) =
    (Return (),
     {| store := {[ "42" := ten_thirty ]}; stdin := ["rs 1"];
        stdout := [PrCommands; PrSessionPrompt] |}).
Proof.
  apply (X20_session_ends_on_blank_or_eof (H:=ascii_str) (sample_env []) ["a.py"] "42"
           (world_with ten_thirty ["  "; "rs 1"])).
  reflexivity.
Defined.

(** X21.  [cmd_review] on a pull request that has a state calls the review
    command for no other path than the one it was asked about, and only
    when that path is in the state and not yet reviewed: for a path that
    is unknown or already reviewed no review command is called. *)
Theorem X21_review_command_only_when_due `{PyStr} env path mode pr_key st w :
  store w !! pr_key = Some st →
  ∃ evs,
    stdout (cmd_review env path mode pr_key w).2 = stdout w ++ evs
    ∧ ∀ c q, RunReviewCmd c q ∈ evs →
        q = path ∧ ∃ e, files st !! path = Some e ∧ reviewed e = false.
Proof.
  intros Hst.
  destruct (files st !! path) as [e|] eqn:Hp.
  - destruct (reviewed e) eqn:Hr.
    + rewrite (cmd_review_already _ _ _ _ _ _ _ Hst Hp Hr).
      eexists. split; [done|].
      intros c q Hin. apply list_elem_of_singleton in Hin. done.
    + assert (∀ rest, (∀ c q, RunReviewCmd c q ∉ rest) →
                ∀ c q, RunReviewCmd c q ∈
                         RunReviewCmd (on_review (user_config env)) path
                           :: PrPrompt "Mark reviewed?" false :: rest →
                q = path ∧ ∃ e0, Some e = Some e0 ∧ reviewed e0 = false) as Honly.
      { intros rest Hrest c q Hin.
        apply elem_of_cons in Hin as [[= -> ->]|Hin]; [by eauto|].
        apply elem_of_cons in Hin as [?|Hin]; [done|]. by apply Hrest in Hin. }
      destruct (stdin w) as [|line rest] eqn:Hin.
      * rewrite (cmd_review_eof _ _ _ _ _ _ _ Hst Hp Hr Hin).
        eexists. split; [done|]. apply Honly. intros ? ?. apply not_elem_of_nil.
      * rewrite (cmd_review_answer _ _ _ _ _ _ _ _ _ Hst Hp Hr Hin).
        destruct (bool_decide (str_lower (str_strip line) = "y")); simpl.
        -- eexists. split; [done|]. apply Honly.
           intros c q Hin'. repeat (apply elem_of_cons in Hin' as [?|Hin']; [done|]).
           by apply not_elem_of_nil in Hin'.
        -- eexists. split; [done|]. apply Honly. intros ? ?. apply not_elem_of_nil.
  - rewrite (cmd_review_unknown _ _ _ _ _ _ Hst Hp).
    eexists. split; [done|].
    intros c q Hin. apply list_elem_of_singleton in Hin. done.
Qed.

Lemma X21_review_command_only_when_due_witness :
  ∃ evs,
    stdout (cmd_review (H:=ascii_str) (sample_env []) "a.py" "skim" "42"
              (world_with ten_thirty ["y"])).2 = [] ++ evs
    ∧ ∀ c q, RunReviewCmd c q ∈ evs →
        q = "a.py" ∧ ∃ e, files ten_thirty !! "a.py" = Some e ∧ reviewed e = false.
Proof.
  apply (X21_review_command_only_when_due (H:=ascii_str) (sample_env []) "a.py" "skim"
           "42" ten_thirty (world_with ten_thirty ["y"])).
  reflexivity.
Defined.

(** X22.  Without a state file and with the input at its end, [load_state]
    ends in [EOFError] after its question, and so do the status and the
    review; nothing else is printed and nothing is saved. *)
Theorem X22_no_state_and_no_input `{PyStr} env path mode pr_key w :
  store w !! pr_key = None →
  stdin w = [] →
  let w' := emit (PrPrompt "No state file. Run overview?" false) w in
  load_state env pr_key w = (Raise EOFError, w')
  ∧ cmd_status env pr_key w = (Raise EOFError, w')
  ∧ cmd_review env path mode pr_key w = (Raise EOFError, w').
Proof.
  intros Hst Hin w'.
  assert (load_state env pr_key w = (Raise EOFError, w')) as Hload.
  { unfold load_state. by rewrite load_state_rec_step, Hst, (yn_eof _ _ _ Hin). }
  unfold cmd_status, cmd_review. by rewrite !io_bind_eq, Hload.
Qed.

Lemma X22_no_state_and_no_input_witness :
  load_state (H:=ascii_str) (sample_env two_files) "42" empty_world =
    (Raise EOFError, emit (PrPrompt "No state file. Run overview?" false) empty_world)
  ∧ cmd_status (H:=ascii_str) (sample_env two_files) "42" empty_world =
      (Raise EOFError, emit (PrPrompt "No state file. Run overview?" false) empty_world)
  ∧ cmd_review (H:=ascii_str) (sample_env two_files) "a.py" "skim" "42" empty_world =
      (Raise EOFError, emit (PrPrompt "No state file. Run overview?" false) empty_world).
Proof.
  exact (X22_no_state_and_no_input (H:=ascii_str) (sample_env two_files) "a.py" "skim"
           "42" empty_world eq_refl eq_refl).
Defined.

(** X23.  The exceptions of [load_state], failures of the file system
    apart: [EOFError] at the question, the [NameError] or the exit with
    status 1 of the overview that it runs, and the recursion limit; no
    other. *)
Theorem X23_load_state_exceptions `{PyStr} env pr_key w e w' :
  load_state env pr_key w = (Raise e, w') →
  e = EOFError ∨ e = NameError "reviewed" ∨ e = SystemExit 1 ∨ e = RecursionError.
Proof. apply load_state_rec_raises. Qed.

Lemma X23_load_state_exceptions_witness :
  NameError "reviewed" = EOFError ∨ NameError "reviewed" = NameError "reviewed"
  ∨ NameError "reviewed" = SystemExit 1 ∨ NameError "reviewed" = RecursionError.
Proof.
  apply (X23_load_state_exceptions (H:=ascii_str) (sample_env two_files) "42"
           {| store := ∅; stdin := ["y"]; stdout := [] |} (NameError "reviewed")
           {| store := ∅; stdin := [];
              stdout := [PrPrompt "No state file. Run overview?" false;
                         PrSummary "Fix ABC-123"; PrJira None "ABC-123";
                         PrFileSummary] |}).
  vm_compute. reflexivity.
Defined.

(** X24.  The status never divides by zero: whatever the state file holds
    and whatever is typed, [cmd_status] does not end in
    [ZeroDivisionError]. *)
Theorem X24_status_never_divides_by_zero `{PyStr} env pr_key w :
  (cmd_status env pr_key w).1 ≠ Raise ZeroDivisionError.
Proof.
  unfold cmd_status. rewrite io_bind_eq.
  destruct (load_state env pr_key w) as [[[st|]|e] w1] eqn:Hload; simpl.
  - rewrite io_bind_eq. unfold lift, percent_reviewed, py_truediv.
    destruct (decide (total_lines st = 0)); [done|].
    destruct (SFdiv _ _ _ _) as [s|s| |s m ex]; simpl; try done;
      match goal with
      | |- context [py_int_of_float ?x] => by destruct x
      end.
  - done.
  - apply load_state_rec_raises in Hload. intros [= ->].
    destruct Hload as [?|[?|[?|?]]]; done.
Qed.

(** X25.  The summary of a session is truthful and complete.  When a
    session on a pull request that has a state returns, the last thing on
    the console is the summary of a list of paths, the header and one line
    per path, or nothing for the empty list; the paths of this list are
    the paths that are marked reviewed in the state file at the end of the
    session and were not at its start, each once, and they are paths of
    the session. *)
Theorem X25_session_summary_is_truthful `{PyStr} env paths pr_key st w :
  store w !! pr_key = Some st →
  (_interactive_session env paths pr_key w).1 = Return () →
  ∃ approved out,
    stdout (_interactive_session env paths pr_key w).2 =
      out ++ match approved with
             | [] => []
             | _ => PrApprovedHeader :: (PrApproved <$> approved)
             end
    ∧ NoDup approved
    ∧ (∀ p, p ∈ approved ↔
            reviewed_in (store (_interactive_session env paths pr_key w).2) pr_key p
            ∧ ¬ reviewed_in (store w) pr_key p)
    ∧ ∀ p, p ∈ approved → p ∈ paths.
Proof.
  intros Hst.
  assert (_interactive_session env paths pr_key w =
          match session_loop env paths pr_key (S (length (stdin w))) []
                  (emit PrCommands w) with
          | (Return approved, w1) =>
              match approved with
              | [] => (Return (), w1)
              | _ => for_each (λ _ pth, print (PrApproved pth)) () approved
                       (emit PrApprovedHeader w1)
              end
          | (Raise e, w1) => (Raise e, w1)
          end) as ->.
  { unfold _interactive_session. rewrite io_bind_eq. unfold print at 1.
    rewrite io_bind_eq. change (stdin (emit PrCommands w)) with (stdin w).
    destruct (session_loop _ _ _ _ _ _) as [[[|? ?]|?] ?]; done. }
  destruct (session_loop env paths pr_key (S (length (stdin w))) [] (emit PrCommands w))
    as [[approved|e] w1] eqn:Hloop; [|done].
  intros _. exists approved, (stdout w1).
  destruct (session_loop_newly env paths pr_key (store w) (S (length (stdin w))) []
              (emit PrCommands w) approved w1) as [_ [Hnd Hiff]];
    [by eapply continues_refl|apply newly_reviewed_refl|exact Hloop|].
  assert (∀ p, p ∈ approved → p ∈ paths) as Hpaths.
  { intros p Hp.
    eapply (session_loop_approved env paths pr_key (S (length (stdin w))) []
              (emit PrCommands w) approved w1);
      [by eexists|by intros ? ?%elem_of_nil|exact Hloop|exact Hp]. }
  destruct approved as [|a approved].
  - simpl. by rewrite app_nil_r.
  - rewrite (for_each_print PrApproved), printed_emit. done.
Qed.

Lemma X25_session_summary_is_truthful_witness :
  ∃ approved out,
    stdout (_interactive_session (H:=ascii_str) (sample_env []) ["a.py"; "b.py"] "42"
              (world_with ten_thirty ["rs 1 2"; "y"; ""])).2 =
      out ++ match approved with
             | [] => []
             | _ => PrApprovedHeader :: (PrApproved <$> approved)
             end
    ∧ NoDup approved
    ∧ (∀ p, p ∈ approved ↔
            reviewed_in
              (store (_interactive_session (H:=ascii_str) (sample_env [])
                        ["a.py"; "b.py"] "42"
                        (world_with ten_thirty ["rs 1 2"; "y"; ""])).2) "42" p
            ∧ ¬ reviewed_in (store (world_with ten_thirty ["rs 1 2"; "y"; ""])) "42" p)
    ∧ ∀ p, p ∈ approved → p ∈ ["a.py"; "b.py"].
Proof.
  apply (X25_session_summary_is_truthful (H:=ascii_str) (sample_env [])
           ["a.py"; "b.py"] "42" ten_thirty
           (world_with ten_thirty ["rs 1 2"; "y"; ""]));
    [reflexivity|vm_compute; reflexivity].
Defined.

(** X27.  For a state in which no entry is reviewed and whose [total_lines]
    is not 0, the status reports all of [total_lines] as remaining, 0
    percent, and as many files as the state has entries. *)
Theorem X27_status_of_fresh_state `{PyStr} env pr_key st w :
  store w !! pr_key = Some st →
  (∀ p e, files st !! p = Some e → reviewed e = false) →
  total_lines st ≠ 0 →
  cmd_status env pr_key w =
    (Return (),
     emit (PrStatus (total_lines st) 0 (Z.of_nat (size (files st)))) w).
Proof.
  intros Hst Hfresh Htot.
  rewrite (cmd_status_found env pr_key st w Hst).
  destruct (unreviewed_sums (files st) Hfresh) as [-> ->].
  rewrite percent_reviewed_zero by done. by rewrite Z.sub_0_r.
Qed.

Lemma X27_status_of_fresh_state_witness :
  cmd_status (H:=ascii_str) (sample_env []) "42"
    (world_with (overview_accumulate two_files).1 []) =
    (Return (),
     emit (PrStatus (total_lines (overview_accumulate two_files).1) 0
             (Z.of_nat (size (files (overview_accumulate two_files).1))))
       (world_with (overview_accumulate two_files).1 [])).
Proof.
  apply (X27_status_of_fresh_state (H:=ascii_str) (sample_env []) "42"
           (overview_accumulate two_files).1
           (world_with (overview_accumulate two_files).1 [])).
  - reflexivity.
  - intros p e Hp. by apply accumulate_unreviewed in Hp as [? _].
  - vm_compute. discriminate.
Defined.

(** X28.  When the input ends at the question of [cmd_review], the review
    command has run, the call ends in [EOFError], nothing is saved and the
    file stays unreviewed. *)
Theorem X28_review_at_end_of_input `{PyStr} env path mode pr_key st e w :
  store w !! pr_key = Some st →
  files st !! path = Some e →
  reviewed e = false →
  stdin w = [] →
  cmd_review env path mode pr_key w =
    (Raise EOFError,
     {| store := store w; stdin := [];
        stdout := stdout w ++ [RunReviewCmd (on_review (user_config env)) path;
                               PrPrompt "Mark reviewed?" false] |})
  ∧ store (cmd_review env path mode pr_key w).2 !! pr_key = Some st.
Proof.
  intros Hst Hp Hr Hin.
  rewrite (cmd_review_eof _ _ _ _ _ _ _ Hst Hp Hr Hin). done.
Qed.

Lemma X28_review_at_end_of_input_witness :
  cmd_review (H:=ascii_str) (sample_env []) "b.py" "deep" "42"
    (world_with ten_thirty []) =
    (Raise EOFError,
     {| store := store (world_with ten_thirty []); stdin := [];
        stdout := [RunReviewCmd None "b.py"; PrPrompt "Mark reviewed?" false] |})
  ∧ store (cmd_review (H:=ascii_str) (sample_env []) "b.py" "deep" "42"
             (world_with ten_thirty [])).2 !! "42" = Some ten_thirty.
Proof.
  apply (X28_review_at_end_of_input (H:=ascii_str) (sample_env []) "b.py" "deep" "42"
           ten_thirty (entry 30 false) (world_with ten_thirty []));
    reflexivity.
Defined.

(** X29.  The list that [review_files] returns names no path twice, also
    when the tokens or the paths of the session repeat it, and names no path
    that was reviewed before the call. *)
Theorem X29_review_files_approves_once `{PyStr} env paths pr_key ids mode st w
    approved :
  store w !! pr_key = Some st →
  (review_files env paths pr_key ids mode w).1 = Return approved →
  NoDup approved ∧ ∀ p, p ∈ approved → ¬ reviewed_in (store w) pr_key p.
Proof.
  intros Hst Hrun.
  destruct (review_files env paths pr_key ids mode w) as [r w'] eqn:Hrf.
  simpl in *. subst r.
  by apply (review_files_fresh env paths pr_key ids mode st w approved w').
Qed.

Lemma X29_review_files_approves_once_witness :
  NoDup ["b.py"]
  ∧ ∀ p, p ∈ ["b.py"] →
      ¬ reviewed_in (store (world_with ten_thirty ["y"; "y"])) "42" p.
Proof.
  apply (X29_review_files_approves_once (H:=ascii_str) (sample_env [])
           ["a.py"; "b.py"; "b.py"] "42" ["2"; "3"; "2"; "1"] "skim" ten_thirty
           (world_with ten_thirty ["y"; "y"]) ["b.py"]);
    [reflexivity|vm_compute; reflexivity].
Defined.
